(** * Minimum-context retrieval, refusal decision and grounding checks

    A shallow embedding of the core of the book question-answering backend:

    - [backend/src/rag/min_text_retriever.py]   (class [MinimumTextRetriever])
    - [backend/src/rag/refusal_handler.py]      (class [RefusalHandler])
    - [backend/src/rag/hallucination_prevention.py]
                                                (class [HallucinationPrevention])

    Python [str] values are lists of code points.  The development covers the
    code points U+0000..U+00FF (one [ascii] per code point), on which
    [str.lower], [str.isspace], [str.split] and [str.strip] are written out
    below exactly as CPython defines them.  Python [int] is [Z]; Python
    [float] is IEEE binary64, i.e. Rocq's primitive [float]. *)

From Stdlib Require Import List String Ascii ZArith Lia Bool Floats.
From Stdlib Require Import DecimalString Sorting.Sorted Sorting.Permutation.
Import ListNotations.

Set Warnings "-inexact-float".

Open Scope Z_scope.

(** ** Python strings *)

Definition str := list ascii.

Coercion list_ascii_of_string : string >-> list.

Definition str_eq_dec : forall a b : str, {a = b} + {a <> b} :=
  list_eq_dec ascii_dec.

Definition str_eqb (a b : str) : bool :=
  if str_eq_dec a b then true else false.

(** [len(x)] *)
Definition len {A : Type} (l : list A) : Z := Z.of_nat (List.length l).

(** Truthiness of a string: [if s:] holds for every string but [""]. *)
Definition truthy (s : str) : bool :=
  match s with [] => false | _ :: _ => true end.

(** [c.isspace()] for a code point below U+0100: TAB, LF, VT, FF, CR,
    the separators U+001C..U+001F, SPACE, NEL (U+0085) and NBSP (U+00A0). *)
Definition is_space (c : ascii) : bool :=
  let n := N_of_ascii c in
  ((9 <=? n) && (n <=? 13) || (28 <=? n) && (n <=? 32)
   || (n =? 133) || (n =? 160))%N.

(** [c.lower()] for a code point below U+0100: A..Z, and the Latin-1
    capitals U+00C0..U+00DE except the multiplication sign U+00D7. *)
Definition lower_char (c : ascii) : ascii :=
  let n := N_of_ascii c in
  if ((65 <=? n) && (n <=? 90)
      || (192 <=? n) && (n <=? 222) && negb (n =? 215))%N
  then ascii_of_N (n + 32) else c.

(** [s.lower()] *)
Definition lower (s : str) : str := map lower_char s.

Fixpoint dropwhile {A : Type} (p : A -> bool) (l : list A) : list A :=
  match l with
  | [] => []
  | a :: l' => if p a then dropwhile p l' else l
  end.

Definition lstrip (s : str) : str := dropwhile is_space s.
Definition rstrip (s : str) : str := rev (dropwhile is_space (rev s)).

(** [s.strip()] *)
Definition strip (s : str) : str := rstrip (lstrip s).

(** [s.split()]: the maximal runs of non-whitespace characters. [cur] holds
    the run being read, most recent character first. *)
Fixpoint split_ws_from (cur : str) (s : str) : list str :=
  match s with
  | [] => match cur with [] => [] | _ :: _ => [rev cur] end
  | c :: s' =>
      if is_space c
      then match cur with
           | [] => split_ws_from [] s'
           | _ :: _ => rev cur :: split_ws_from [] s'
           end
      else split_ws_from (c :: cur) s'
  end.

Definition split_ws (s : str) : list str := split_ws_from [] s.

(** [s.split(sep)] for a one-character separator: every occurrence cuts,
    empty pieces are kept, and [''.split(sep)] is [['']]. *)
Fixpoint split_on_from (sep : ascii) (cur : str) (s : str) : list str :=
  match s with
  | [] => [rev cur]
  | c :: s' =>
      if Ascii.eqb c sep
      then rev cur :: split_on_from sep [] s'
      else split_on_from sep (c :: cur) s'
  end.

Definition split_on (sep : ascii) (s : str) : list str :=
  split_on_from sep [] s.

(** [sep.join(parts)] *)
Fixpoint join (sep : str) (parts : list str) : str :=
  match parts with
  | [] => []
  | [p] => p
  | p :: ps => p ++ sep ++ join sep ps
  end.

Fixpoint startswith (p s : str) : bool :=
  match p, s with
  | [], _ => true
  | _ :: _, [] => false
  | a :: p', b :: s' => Ascii.eqb a b && startswith p' s'
  end.

(** [needle in hay] *)
Fixpoint str_in (needle hay : str) : bool :=
  startswith needle hay ||
  match hay with
  | [] => false
  | _ :: hay' => str_in needle hay'
  end.

(** [re.search(pattern, s)] for a pattern made of letters and spaces only
    (every pattern of this program is): a plain substring search. *)
Definition re_search (pattern s : str) : bool := str_in pattern s.

(** ** Python sets of words

    [set(xs)] is kept as a duplicate-free list; only membership, emptiness
    and [len] of such sets are observed by the program. *)

Definition pyset (xs : list str) : list str := nodup str_eq_dec xs.

Definition mem (w : str) (xs : list str) : bool := existsb (str_eqb w) xs.

(** [a.intersection(b)] *)
Definition intersection (a b : list str) : list str :=
  filter (fun w => mem w b) a.

(** ** refusal_handler.py *)

Module RefusalHandler.

Inductive RefusalType : Type :=
  | INSUFFICIENT_CONTEXT
  | NO_RELEVANT_CONTENT
  | SELECTED_TEXT_ONLY_INSUFFICIENT
  | CONTEXT_TOO_BRIEF
  | NO_CONTEXT_PROVIDED
  | HALLUCINATION_PREVENTION.

(** [refusal_type.value] *)
Definition value (t : RefusalType) : str :=
  match t with
  | INSUFFICIENT_CONTEXT => "insufficient_context"%string
  | NO_RELEVANT_CONTENT => "no_relevant_content"%string
  | SELECTED_TEXT_ONLY_INSUFFICIENT => "selected_text_only_insufficient"%string
  | CONTEXT_TOO_BRIEF => "context_too_brief"%string
  | NO_CONTEXT_PROVIDED => "no_context_provided"%string
  | HALLUCINATION_PREVENTION => "hallucination_prevention"%string
  end.

(** [self.refusal_messages]: the dictionary built in [__init__] has a key
    for each member of the enumeration. *)
Definition refusal_messages (t : RefusalType) : str :=
  match t with
  | INSUFFICIENT_CONTEXT =>
      ("I cannot answer this question based on the provided book content. "
       ++ "The retrieved information does not contain sufficient details to provide an accurate response. "
       ++ "Please refer to the relevant sections of the book for the information you need.")%string
  | NO_RELEVANT_CONTENT =>
      ("I cannot answer this question based on the provided book content. "
       ++ "The retrieved information does not appear to contain relevant information for your query. "
       ++ "Please check the book sections that might contain this information.")%string
  | SELECTED_TEXT_ONLY_INSUFFICIENT =>
      ("I cannot answer this question based only on the selected text. "
       ++ "The selected portion does not contain sufficient information to address your query. "
       ++ "Please select a broader text segment or refer to other relevant sections of the book.")%string
  | CONTEXT_TOO_BRIEF =>
      ("I cannot provide an accurate answer based on the provided context, as it is too brief to contain the necessary information. "
       ++ "Please provide more context from the book or refer to the relevant sections directly.")%string
  | NO_CONTEXT_PROVIDED =>
      ("I cannot answer this question without context from the book. "
       ++ "No relevant book content was provided to answer your query. "
       ++ "Please ensure you have selected text or that the book content is properly indexed.")%string
  | HALLUCINATION_PREVENTION =>
      ("I cannot answer this question as it requires information not available in the provided book content. "
       ++ "I am designed to answer only from the specific book content provided. "
       ++ "Please consult the book directly for this information.")%string
  end.

Definition get_refusal_message (refusal_type : RefusalType)
    (custom_context : option str) : str :=
  let base_message := refusal_messages refusal_type in
  match custom_context with
  | Some c => if truthy c then base_message ++ " "%string ++ c else base_message
  | None => base_message
  end.

(** The dictionaries returned by the [generate_*] methods. *)
Record Refusal : Type := mkRefusal {
  r_refusal_type : str;
  r_message : str;
  r_should_refuse : bool
}.

Definition generate_context_insufficient_refusal
    (context_length : Z) (min_required_length : Z) : Refusal :=
  let refusal_type :=
    if context_length =? 0 then NO_CONTEXT_PROVIDED
    else if context_length <? min_required_length then CONTEXT_TOO_BRIEF
    else INSUFFICIENT_CONTEXT in
  mkRefusal (value refusal_type) (get_refusal_message refusal_type None) true.

Definition generate_no_relevant_content_refusal (query : str) : Refusal :=
  mkRefusal (value NO_RELEVANT_CONTENT)
            (get_refusal_message NO_RELEVANT_CONTENT None) true.

(** The dictionary returned by [should_refuse_answer]; [None] is Python's
    [None]. *)
Record Decision : Type := mkDecision {
  should_refuse : bool;
  refusal_type : option str;
  message : option str;
  reason : option str
}.

Definition should_refuse_answer (context query : str)
    (min_context_length : Z) : Decision :=
  (* Check if context is empty *)
  if negb (truthy context) || (len (strip context) =? 0) then
    let refusal := generate_context_insufficient_refusal 0 50 in
    mkDecision true (Some (r_refusal_type refusal)) (Some (r_message refusal))
               (Some ("no_context"%string : str))
  else
  (* Check if context is too brief *)
  let context_length := len (strip context) in
  if context_length <? min_context_length then
    let refusal :=
      generate_context_insufficient_refusal context_length min_context_length in
    mkDecision true (Some (r_refusal_type refusal)) (Some (r_message refusal))
               (Some ("context_too_brief"%string : str))
  else
  (* Check for relevance using simple keyword matching *)
  let context_lower := lower context in
  let query_lower := lower query in
  let query_words := pyset (split_ws query_lower) in
  let context_words := pyset (split_ws context_lower) in
  let common_words := intersection query_words context_words in
  if (len common_words =? 0) && (0 <? len query_words) then
    let refusal := generate_no_relevant_content_refusal query in
    mkDecision true (Some (r_refusal_type refusal)) (Some (r_message refusal))
               (Some ("no_relevance"%string : str))
  else
    mkDecision false None None None.

End RefusalHandler.

(** ** min_text_retriever.py *)

Module MinimumTextRetriever.

(** A row of [book_chunks] as the cursor returns it.  [section] and
    [token_count] are nullable columns. *)
Record Chunk : Type := mkChunk {
  chunk_id : str;
  chapter : str;
  section : option str;
  title : str;
  content : str;
  chunk_token_count : option Z
}.

(** The corpus store behind [db_url]: the rows [cursor.fetchall()] yields for
    the full-text query of the methods below, given the query text and the
    [LIMIT] of the statement, best rank first. *)
Record Database : Type := mkDatabase {
  full_text_search : str -> Z -> list Chunk
}.

(** The retriever object: [self.connection] is open or [None]; [executed] is
    the trace of the statements sent through the connection, latest first. *)
Record Retriever : Type := mkRetriever {
  database : Database;
  connection : bool;
  executed : list (str * Z)
}.

(** Methods run in a state monad over the retriever. *)
Definition M (A : Type) : Type := Retriever -> A * Retriever.

Definition ret {A : Type} (a : A) : M A := fun self => (a, self).

Definition bind {A B : Type} (m : M A) (k : A -> M B) : M B :=
  fun self => let (a, self') := m self in k a self'.

Notation "x <- m ;; k" := (bind m (fun x => k))
  (at level 61, m at next level, right associativity).
Notation "m ;;; k" := (bind m (fun _ => k))
  (at level 61, right associativity).

Definition connect_to_db : M unit :=
  fun self => (tt, mkRetriever (database self) true (executed self)).

(** [if not self.connection: self.connect_to_db()] *)
Definition ensure_connection : M unit :=
  fun self => if connection self then (tt, self) else connect_to_db self.

(** [cursor.execute(...); cursor.fetchall()] *)
Definition execute_search (query : str) (limit : Z) : M (list Chunk) :=
  fun self =>
    (full_text_search (database self) query limit,
     mkRetriever (database self) (connection self)
                 ((query, limit) :: executed self)).

Definition _calculate_token_count (text : str) : Z := len (split_ws text).

Definition is_terminal (c : ascii) : bool :=
  Ascii.eqb c "." || Ascii.eqb c "!" || Ascii.eqb c "?".

(** [re.split(r'[.!?]+', s)]: the pieces between the maximal runs of
    terminal punctuation; a run at either end leaves an empty piece there.
    [in_run] tells that the previous character belonged to a run. *)
Fixpoint re_split_terminal (in_run : bool) (cur : str) (s : str) : list str :=
  match s with
  | [] => [rev cur]
  | c :: s' =>
      if is_terminal c
      then if in_run then re_split_terminal true cur s'
           else rev cur :: re_split_terminal true [] s'
      else re_split_terminal false (c :: cur) s'
  end.

(** Lines 33-34: the stripped, non-empty sentences of a text. *)
Definition split_sentences (text : str) : list str :=
  filter truthy (map strip (re_split_terminal false [] text)).

(** What lines 33-34 keep of a text: stripped, non-empty pieces free of
    terminal punctuation. *)
Definition is_sentence (t : str) : Prop :=
  t <> [] /\ strip t = t
  /\ forallb (fun c => negb (is_terminal c)) t = true.

(** Lines 41-45: the number of query terms found in the sentence. *)
Definition sentence_score (query_terms : list str) (sentence : str) : Z :=
  let sentence_lower := lower sentence in
  fold_left (fun score term =>
               if str_in term sentence_lower then score + 1 else score)
            query_terms 0.

(** [list.sort(key=lambda x: x[1], reverse=True)]: a stable sort, greatest
    score first, equal scores in their original order. *)
Fixpoint insert_desc (x : str * Z) (l : list (str * Z)) : list (str * Z) :=
  match l with
  | [] => [x]
  | y :: l' => if snd x <? snd y then y :: insert_desc x l' else x :: l
  end.

Definition sort_desc (l : list (str * Z)) : list (str * Z) :=
  fold_right insert_desc [] l.

(** [l[:k]]: a negative [k] counts from the end. *)
Definition slice_to {A : Type} (k : Z) (l : list A) : list A :=
  if 0 <=? k then firstn (Z.to_nat k) l
  else firstn (List.length l - Z.to_nat (- k)) l.

(** Lines 37-50: the sentences kept, best first. *)
Definition top_sentences (text query : str) (max_sentences : Z) : list str :=
  let sentences := split_sentences text in
  let query_terms := split_ws (lower query) in
  let scored_sentences :=
    map (fun sentence => (sentence, sentence_score query_terms sentence))
        sentences in
  let scored_sentences := sort_desc scored_sentences in
  map fst (filter (fun s => 0 <? snd s) (slice_to max_sentences scored_sentences)).

Definition _find_relevant_sentences (text query : str) (max_sentences : Z)
    : str :=
  join ". "%string (top_sentences text query max_sentences) ++ "."%string.

(** The dictionary the [retrieve_*] methods build and return. *)
Record Result : Type := mkResult {
  context : str;
  sources : list str;
  token_count : Z;
  selected_text_used : bool;
  query : str;
  is_sufficient : bool
}.

Definition format_optional (s : option str) : str :=
  match s with Some x => x | None => "None"%string end.

(** [f"{chunk['chapter']}/{chunk['section']} - {chunk['title']}"] *)
Definition source_ref (chunk : Chunk) : str :=
  chapter chunk ++ "/"%string ++ format_optional (section chunk)
  ++ " - "%string ++ title chunk.

(** Lines 122-134: one excerpt is added to the result. *)
Definition add_excerpt (result : Result) (chunk : Chunk)
    (relevant_excerpt : str) (excerpt_token_count : Z) : Result :=
  mkResult
    (if truthy (context result)
     then context result ++ [ascii_of_nat 10; ascii_of_nat 10] ++ relevant_excerpt
     else relevant_excerpt)
    (if mem (source_ref chunk) (sources result)
     then sources result
     else sources result ++ [source_ref chunk])
    (token_count result + excerpt_token_count)
    (selected_text_used result)
    (query result)
    (is_sufficient result).

(** Lines 109-134 (and 194-219): the loop over the rows.  [break] returns
    the result, [continue] goes on with the next row. *)
Fixpoint process_results (max_sentences : Z) (q : str)
    (search_results : list Chunk) (result : Result) (remaining_tokens : Z)
    : Result :=
  match search_results with
  | [] => result
  | chunk :: rest =>
      if remaining_tokens <=? 0 then result
      else
        let relevant_excerpt :=
          _find_relevant_sentences (content chunk) q max_sentences in
        if negb (truthy (strip relevant_excerpt))
        then process_results max_sentences q rest result remaining_tokens
        else
          let excerpt_token_count := _calculate_token_count relevant_excerpt in
          if excerpt_token_count <=? remaining_tokens
          then process_results max_sentences q rest
                 (add_excerpt result chunk relevant_excerpt excerpt_token_count)
                 (remaining_tokens - excerpt_token_count)
          else process_results max_sentences q rest result remaining_tokens
  end.

Definition set_is_sufficient (result : Result) (b : bool) : Result :=
  mkResult (context result) (sources result) (token_count result)
           (selected_text_used result) (query result) b.

(** [bool(selected_text)] *)
Definition provided (selected_text : option str) : bool :=
  match selected_text with Some s => truthy s | None => false end.

Definition user_selected_label : str := "User Selected Text"%string.

Definition retrieve_minimum_context (q : str) (selected_text : option str)
    (max_tokens min_tokens : Z) : M Result :=
  ensure_connection ;;;
  let result := mkResult [] [] 0 (provided selected_text) q false in
  (* If user has selected specific text, use that as primary context *)
  let result :=
    match selected_text with
    | Some s =>
        if truthy s
        then mkResult s (sources result ++ [user_selected_label])
                      (_calculate_token_count s) (selected_text_used result)
                      (query result) (min_tokens <=? _calculate_token_count s)
        else result
    | None => result
    end in
  if provided selected_text
     && (token_count result <=? max_tokens) && is_sufficient result
  then ret result
  else if token_count result <? max_tokens then
    let remaining_tokens := max_tokens - token_count result in
    search_results <- execute_search q 10 ;;
    let result := process_results 3 q search_results result remaining_tokens in
    ret (set_is_sufficient result (min_tokens <=? token_count result))
  else ret result.

Definition retrieve_for_selected_text_only (selected_text q : str) : Result :=
  mkResult selected_text [user_selected_label]
           (_calculate_token_count selected_text) true q
           (50 <=? _calculate_token_count selected_text).

Definition retrieve_for_book_scope (q : str) (max_tokens : Z) : M Result :=
  ensure_connection ;;;
  let result := mkResult [] [] 0 false q false in
  search_results <- execute_search q 15 ;;
  let result := process_results 2 q search_results result max_tokens in
  ret (set_is_sufficient result (100 <=? token_count result)).

(** The counter kept in the result is the word count of the context. *)
Definition counted (r : Result) : Prop :=
  token_count r = _calculate_token_count (context r).

(** The words of the supplied excerpt; none when there is no excerpt. *)
Definition excerpt_words (selected_text : option str) : Z :=
  match selected_text with
  | Some s => _calculate_token_count s
  | None => 0
  end.

End MinimumTextRetriever.

(** ** hallucination_prevention.py *)

Module HallucinationPrevention.

Import RefusalHandler.

Definition hallucination_patterns : list str :=
  [ "according to my training data"%string : str;
    "i know that"%string : str;
    "from general knowledge"%string : str;
    "i understand that"%string : str;
    "most likely"%string : str;
    "probably"%string : str;
    "perhaps"%string : str;
    "maybe"%string : str;
    "could be"%string : str;
    "might be"%string : str;
    "i think"%string : str;
    "in general"%string : str;
    "typically"%string : str;
    "usually"%string : str;
    "often"%string : str;
    "as you know"%string : str;
    "everyone knows"%string : str;
    "common knowledge"%string : str;
    "external sources"%string : str;
    "other places"%string : str;
    "elsewhere"%string : str;
    "additionally"%string : str;
    "furthermore"%string : str;
    "moreover"%string : str ].

(** [float(n)] for a count [n]; exact below 2^53. *)
Definition float_of_count (n : nat) : float :=
  PrimFloat.of_uint63 (Uint63.of_Z (Z.of_nat n)).

(** [max(a, b)] on floats: [b] when [b > a], otherwise [a]. *)
Definition float_max (a b : float) : float :=
  if PrimFloat.ltb a b then b else a.

(** The dictionary [validation_result]. *)
Record Validation : Type := mkValidation {
  is_valid : bool;
  hallucination_detected : bool;
  issues : list str;
  confidence_score : float
}.

(** Lines 99-102. *)
Definition detect_patterns (response_lower : str) : list str :=
  filter (fun pattern => re_search pattern response_lower)
         hallucination_patterns.

(** [f"Potential hallucination: '{sentence.strip()[:100]}...'"] *)
Definition potential_hallucination (sentence : str) : str :=
  "Potential hallucination: '"%string ++ firstn 100 (strip sentence)
  ++ "...'"%string.

(** Lines 116-123: the body of the loop over the sentences. *)
Definition check_sentence (context_words : list str)
    (validation_result : Validation) (sentence : str) : Validation :=
  let sentence_words := pyset (split_ws (lower sentence)) in
  if 5 <? len sentence_words then
    let overlap := intersection sentence_words context_words in
    if len overlap =? 0 then
      mkValidation false true
        (issues validation_result ++ [potential_hallucination sentence])
        (confidence_score validation_result)
    else validation_result
  else validation_result.

Definition validate_response_for_hallucinations (response context : str)
    : Validation :=
  let validation_result := mkValidation true false [] 1%float in
  let response_lower := lower response in
  (* Check for hallucination patterns *)
  let detected_patterns := detect_patterns response_lower in
  let validation_result :=
    match detected_patterns with
    | [] => validation_result
    | _ :: _ =>
        mkValidation false true
          (issues validation_result ++ detected_patterns)
          (confidence_score validation_result)
    end in
  (* Check if response contains information not in context *)
  let validation_result :=
    if truthy context && truthy response then
      let context_words := pyset (split_ws (lower context)) in
      let response_sentences := split_on "." response in
      fold_left (check_sentence context_words) response_sentences
                validation_result
    else validation_result in
  (* Calculate confidence based on issues found *)
  let issue_count := List.length (issues validation_result) in
  mkValidation (is_valid validation_result)
    (hallucination_detected validation_result)
    (issues validation_result)
    (float_max 0%float (1 - float_of_count issue_count * 0.1)%float).

(** The condition of lines 118-120 under which a sentence is flagged: more
    than five distinct words, none of them a word of the context. *)
Definition is_unsupported (context_words : list str) (sentence : str) : bool :=
  let sentence_words := pyset (split_ws (lower sentence)) in
  (5 <? len sentence_words)
  && (len (intersection sentence_words context_words) =? 0).

(** The sentences the second pass flags, in order; the pass runs only when
    both strings are non-empty (line 110). *)
Definition unsupported_sentences (response context : str) : list str :=
  if truthy context && truthy response
  then filter (is_unsupported (pyset (split_ws (lower context))))
              (split_on "." response)
  else [].

(** Lines 139-147: the body of the loop over the patterns. *)
Definition remove_pattern (refined_response pattern : str) : str :=
  let sentences := split_on "." refined_response in
  let filtered_sentences :=
    map strip
        (filter (fun sentence => negb (re_search pattern (lower sentence)))
                sentences) in
  join ". "%string filtered_sentences.

(** Lines 135-147: the response after the loop over the patterns. *)
Definition strip_patterns (response : str) : str :=
  fold_left remove_pattern hallucination_patterns response.

(** Lines 164-173: [len(common_words) / len(response_words)]. *)
Definition overlap_ratio (response context : str) : float :=
  let response_words := pyset (split_ws (lower response)) in
  let context_words := pyset (split_ws (lower context)) in
  let common_words := intersection response_words context_words in
  (float_of_count (List.length common_words)
   / float_of_count (List.length response_words))%float.

Definition _response_is_contextually_valid (response context : str) : bool :=
  if negb (truthy context) || negb (truthy response) then false
  else
    let response_words := pyset (split_ws (lower response)) in
    let context_words := pyset (split_ws (lower context)) in
    let common_words := intersection response_words context_words in
    if len common_words =? 0 then false
    else PrimFloat.leb 0.3%float (overlap_ratio response context).

Definition refine_response (response context : str) : str :=
  let refined_response := strip_patterns response in
  if negb (_response_is_contextually_valid refined_response context)
  then get_refusal_message INSUFFICIENT_CONTEXT None
  else refined_response.

(** The dictionary [pipeline_result]. *)
Record Pipeline : Type := mkPipeline {
  original_response : str;
  validation : Validation;
  refined_response : option str;
  needs_refusal : bool
}.

Definition run_hallucination_prevention_pipeline (query context response : str)
    : Pipeline :=
  let validation := validate_response_for_hallucinations response context in
  if hallucination_detected validation then
    let refined := refine_response response context in
    if negb (str_eqb refined response)
       && hallucination_detected
            (validate_response_for_hallucinations refined context)
    then mkPipeline response validation
           (Some (get_refusal_message HALLUCINATION_PREVENTION None)) true
    else mkPipeline response validation (Some refined) false
  else mkPipeline response validation (Some response) false.

(** The first entry of [hallucination_patterns]. *)
Definition training_data_phrase : str := "according to my training data"%string.

End HallucinationPrevention.

(** ** constitution_enforcer.py *)

Module ConstitutionEnforcer.

Definition newline : ascii := ascii_of_nat 10.

(** Lines 151-154; [section] is listed twice in the source. *)
Definition reference_patterns : list str :=
  [ "chapter"%string : str; "section"%string : str; "module"%string : str;
    "page"%string : str; "figure"%string : str; "section"%string : str;
    "subsection"%string : str; "book"%string : str;
    "documentation"%string : str ].

Definition _has_source_reference (response : str) : bool :=
  let response_lower := lower response in
  existsb (fun pattern => str_in pattern response_lower) reference_patterns.

Record Issue : Type := mkIssue {
  principle : str;
  issue : str;
  severity : str
}.

Record Recommendation : Type := mkRecommendation {
  rec_principle : str;
  recommendation : str
}.

(** The dictionary [compliance_result]. *)
Record Compliance : Type := mkCompliance {
  is_compliant : bool;
  issues : list Issue;
  recommendations : list Recommendation
}.

Definition check_constitutional_compliance (query context response : str)
    : Compliance :=
  let compliance_result := mkCompliance true [] [] in
  (* Check for hallucination (Principle I) *)
  let compliance_result :=
    if negb (truthy (strip context)) && truthy (strip response)
    then mkCompliance false
           (issues compliance_result
            ++ [mkIssue ("I"%string)
                  ("Response provided without context - potential hallucination"%string)
                  ("critical"%string)])
           (recommendations compliance_result)
    else compliance_result in
  (* Check for proper source attribution (Principle V) *)
  if truthy (strip response) && negb (_has_source_reference response)
  then mkCompliance (is_compliant compliance_result)
         (issues compliance_result)
         (recommendations compliance_result
          ++ [mkRecommendation ("V"%string)
                ("Include references to specific book sections in response"%string)])
  else compliance_result.

(** Lines 171-175: the refusal returned on a critical issue. *)
Definition compliant_refusal : str :=
  ("I cannot answer this question based on the book content provided. "
   ++ "The response would require information not available in the book. "
   ++ "Please refer to the relevant book sections for accurate information.")%string.

(** Lines 179-183: the note appended when no reference is found. *)
Definition source_note : str :=
  [newline; newline]
  ++ ("Note: This information is based on the book content. "
      ++ "For more details, please refer to the specific book sections "
      ++ "that contain this information.")%string.

(** The loop of lines 168-175 returns at the first critical issue. *)
Definition enforce_constitution_rules (query context response : str) : str :=
  let compliance := check_constitutional_compliance query context response in
  if negb (is_compliant compliance)
     && existsb (fun i => str_eqb (severity i) ("critical"%string))
                (issues compliance)
  then compliant_refusal
  else if negb (_has_source_reference response) && truthy context
  then response ++ source_note
  else response.

(** The dictionary [validation] of [validate_context_sufficiency]. *)
Record Sufficiency : Type := mkSufficiency {
  is_sufficient : bool;
  reason : str;
  required_principles : list str
}.

Definition validate_context_sufficiency (query context : str) : Sufficiency :=
  let required := [("I"%string : str); ("IV"%string : str)] in
  if negb (truthy (strip context))
  then mkSufficiency false
         ("No context provided - cannot answer without book content"%string)
         required
  else if len (strip context) <? 50
  then mkSufficiency false
         ("Context too brief to provide accurate answer"%string) required
  else
    let query_keywords := pyset (split_ws (lower query)) in
    let context_lower := lower context in
    let context_words := pyset (split_ws context_lower) in
    let common_words := intersection query_keywords context_words in
    if 0 <? len common_words
    then mkSufficiency true
           ("Context contains relevant information for the query"%string)
           required
    else mkSufficiency false
           ("Context does not appear to contain relevant information for the query"%string)
           required.

End ConstitutionEnforcer.

(** ** claude_client.py *)

Module ClaudeRAGClient.

(** [str(n)] for an integer. *)
Definition str_of_int (n : Z) : str :=
  list_ascii_of_string (NilZero.string_of_int (Z.to_int n)).

(** The dictionary [validation_result] of [validate_context_before_send]. *)
Record ContextValidation : Type := mkContextValidation {
  is_valid : bool;
  issues : list str;
  filtered_context : str
}.

Definition max_context_length : Z := 100000.

(** The body of the coroutine [validate_context_before_send]; it awaits
    nothing. *)
Definition validate_context_before_send (context original_query : str)
    : ContextValidation :=
  let validation_result := mkContextValidation true [] context in
  (* Check if context is empty *)
  if negb (truthy context) || (len (strip context) =? 0)
  then mkContextValidation false
         (issues validation_result
          ++ [("Context is empty or contains only whitespace"%string : str)])
         (filtered_context validation_result)
  else
    (* Check context length *)
    let validation_result :=
      if max_context_length <? len context
      then mkContextValidation (is_valid validation_result)
             (issues validation_result
              ++ [("Context was too long ("%string : str)
                  ++ str_of_int (len context)
                  ++ (" chars) and was truncated"%string : str)])
             (firstn (Z.to_nat max_context_length) context)
      else validation_result in
    (* Verify context relevance to query *)
    if truthy original_query && truthy context
    then
      let query_words := pyset (split_ws (lower original_query)) in
      let context_words := pyset (split_ws (lower context)) in
      let common_words := intersection query_words context_words in
      if (len common_words =? 0) && (0 <? len query_words)
      then mkContextValidation (is_valid validation_result)
             (issues validation_result
              ++ [("Context appears unrelated to query"%string : str)])
             (filtered_context validation_result)
      else validation_result
    else validation_result.

End ClaudeRAGClient.

(** ** retriever.py *)

Module BookContentRetriever.

Import MinimumTextRetriever.

(** [search_content(query, limit)] without chapter filter: the same
    full-text statement, sent through the same kind of connection. *)
Definition search_content (q : str) (limit : Z) : M (list Chunk) :=
  ensure_connection ;;;
  execute_search q limit.

(** An entry of [retrieved_content]. *)
Record Content : Type := mkContent {
  entry_type : str;
  entry_content : str;
  entry_title : str;
  entry_chapter : str;
  entry_section : option str;
  entry_token_count : Z
}.

(** The dictionary [get_relevant_context] builds. *)
Record Context : Type := mkContext {
  retrieved_content : list Content;
  selected_text_used : bool;
  total_tokens : Z;
  sources : list str
}.

(** The call returns its dictionary, or stops on the [TypeError] of adding
    [None] (a row without token count) to an integer. *)
Inductive Outcome : Type :=
  | Returned (result : Context)
  | TypeError.

(** [f"{chunk['chapter']}/{chunk['section']}"] *)
Definition chapter_section (chunk : Chunk) : str :=
  chapter chunk ++ "/"%string ++ format_optional (section chunk).

(** Lines 215-226: a search result is appended. *)
Definition add_chunk (result : Context) (chunk : Chunk)
    (chunk_token_count : Z) : Context :=
  mkContext
    (retrieved_content result
     ++ [mkContent ("search_result"%string) (content chunk) (title chunk)
           (chapter chunk) (section chunk) chunk_token_count])
    (selected_text_used result)
    (total_tokens result + chunk_token_count)
    (if mem (chapter_section chunk) (sources result)
     then sources result
     else sources result ++ [chapter_section chunk]).

(** Lines 211-229: the loop over the search results. *)
Fixpoint add_chunks (max_tokens : Z) (search_results : list Chunk)
    (result : Context) : Outcome :=
  match search_results with
  | [] => Returned result
  | chunk :: rest =>
      match chunk_token_count chunk with
      | None => TypeError
      | Some n =>
          let result :=
            if total_tokens result + n <=? max_tokens
            then add_chunk result chunk n
            else result in
          if max_tokens <=? total_tokens result
          then Returned result
          else add_chunks max_tokens rest result
      end
  end.

Definition get_relevant_context (q : str) (selected_text : option str)
    (max_tokens : Z) : M Outcome :=
  let result := mkContext [] (provided selected_text) 0 [] in
  (* If user has selected specific text, prioritize that *)
  let result :=
    match selected_text with
    | Some s =>
        if truthy s
        then mkContext
               (retrieved_content result
                ++ [mkContent ("selected_text"%string) s user_selected_label
                      ("selected"%string) (Some ("selected"%string : str))
                      (len (split_ws s))])
               (selected_text_used result)
               (total_tokens result + len (split_ws s))
               (sources result ++ [user_selected_label])
        else result
    | None => result
    end in
  (* If we still have room and need more context, search the database *)
  if total_tokens result <? max_tokens
  then
    search_results <- search_content q 10 ;;
    ret (add_chunks max_tokens search_results result)
  else ret (Returned result).

(** The token counts listed in [retrieved_content], summed. *)
Definition listed_tokens (entries : list Content) : Z :=
  fold_right (fun e acc => entry_token_count e + acc) 0 entries.

End BookContentRetriever.

(** ** Vocabulary of the further properties *)

(** A search pattern that is a plain phrase: not empty, without a period,
    and not starting with a space.  Every entry of
    [HallucinationPrevention.hallucination_patterns] is one. *)
Definition plain_pattern (p : str) : bool :=
  match p with
  | [] => false
  | c :: _ =>
      negb (Ascii.eqb c " ")
      && forallb (fun x => negb (Ascii.eqb x ".")) p
  end.

(** * Properties *)

Import RefusalHandler.

(** ** Strings *)

Lemma dropwhile_nil_iff {A : Type} (p : A -> bool) (l : list A) :
  dropwhile p l = [] <-> forallb p l = true.
Proof.
  induction l as [|a l IH]; simpl.
  - tauto.
  - destruct (p a); simpl; [exact IH | split; discriminate].
Qed.

Lemma forallb_rev {A : Type} (p : A -> bool) (l : list A) :
  forallb p (rev l) = forallb p l.
Proof.
  induction l as [|a l IH]; simpl; [reflexivity|].
  rewrite forallb_app, IH. simpl. rewrite andb_true_r. apply andb_comm.
Qed.

Lemma dropwhile_head {A : Type} (p : A -> bool) (l : list A) :
  match dropwhile p l with [] => True | a :: _ => p a = false end.
Proof.
  induction l as [|a l IH]; simpl; [exact I|].
  destruct (p a) eqn:E; [exact IH | exact E].
Qed.

(** [s.strip()] is empty exactly when [s] holds whitespace only. *)
Lemma strip_nil_iff (s : str) :
  strip s = [] <-> forallb is_space s = true.
Proof.
  unfold strip, rstrip, lstrip. split.
  - intros H. apply (f_equal (@rev ascii)) in H.
    rewrite rev_involutive in H. simpl in H.
    apply dropwhile_nil_iff in H. rewrite forallb_rev in H.
    pose proof (dropwhile_head is_space s) as Hh.
    destruct (dropwhile is_space s) as [|a t] eqn:E.
    + apply dropwhile_nil_iff. exact E.
    + simpl in H. rewrite Hh in H. discriminate.
  - intros H. apply dropwhile_nil_iff in H. rewrite H. reflexivity.
Qed.

Lemma strip_nil : strip [] = [].
Proof. reflexivity. Qed.

Lemma is_space_lower_char (c : ascii) :
  is_space (lower_char c) = is_space c.
Proof. destruct c as [[] [] [] [] [] [] [] []]; reflexivity. Qed.

Lemma forallb_is_space_lower (s : str) :
  forallb is_space (lower s) = forallb is_space s.
Proof.
  induction s as [|c s IH]; simpl; [reflexivity|].
  rewrite is_space_lower_char, IH. reflexivity.
Qed.

Lemma split_ws_all_space (s : str) :
  forallb is_space s = true -> split_ws s = [].
Proof.
  unfold split_ws. induction s as [|c s IH]; simpl; [reflexivity|].
  intros H. apply andb_true_iff in H. destruct H as [Hc Hs].
  rewrite Hc. auto.
Qed.

(** A text with a word is not blank, before or after case folding. *)
Lemma word_of_lower_not_blank (s w : str) :
  In w (split_ws (lower s)) -> strip s <> [].
Proof.
  intros Hin Hs. apply strip_nil_iff in Hs.
  rewrite <- forallb_is_space_lower in Hs.
  apply split_ws_all_space in Hs. rewrite Hs in Hin. exact Hin.
Qed.

Lemma str_eqb_eq (a b : str) : str_eqb a b = true <-> a = b.
Proof.
  unfold str_eqb. destruct (str_eq_dec a b); split; congruence.
Qed.

Lemma mem_In (w : str) (xs : list str) : mem w xs = true <-> In w xs.
Proof.
  unfold mem. rewrite existsb_exists. split.
  - intros [x [Hx He]]. apply str_eqb_eq in He. subst. exact Hx.
  - intros H. exists w. split; [exact H | apply str_eqb_eq; reflexivity].
Qed.

Lemma In_pyset (w : str) (xs : list str) : In w (pyset xs) <-> In w xs.
Proof. unfold pyset. apply nodup_In. Qed.

Lemma In_intersection (w : str) (a b : list str) :
  In w (intersection a b) <-> In w a /\ In w b.
Proof.
  unfold intersection. rewrite filter_In, mem_In. tauto.
Qed.

Lemma len_zero_nil {A : Type} (l : list A) : len l = 0 <-> l = [].
Proof.
  unfold len. destruct l; simpl; split; intros; try reflexivity;
    try discriminate; lia.
Qed.

Lemma len_nonneg {A : Type} (l : list A) : 0 <= len l.
Proof. unfold len. lia. Qed.

(** ** The sufficiency and relevance gate *)


(** C6.  For every query (the empty one included), an empty or
    whitespace-only context is refused with reason [no_context]; the
    decision is a value, no exception is involved. *)
Theorem empty_context_is_no_context :
  forall (context query : str) (min_context_length : Z),
    strip context = [] ->
    let d := should_refuse_answer context query min_context_length in
    should_refuse d = true /\
    reason d = Some ("no_context"%string : str) /\
    refusal_type d = Some (value NO_CONTEXT_PROVIDED) /\
    message d = Some (refusal_messages NO_CONTEXT_PROVIDED).
Proof.
  intros context query m Hs. unfold should_refuse_answer.
  rewrite Hs. simpl. rewrite orb_true_r. simpl. repeat split.
Qed.

Lemma empty_context_is_no_context_witness :
  let d := should_refuse_answer ("   "%string) [] 50 in
  should_refuse d = true /\
  reason d = Some ("no_context"%string : str) /\
  refusal_type d = Some (value NO_CONTEXT_PROVIDED) /\
  message d = Some (refusal_messages NO_CONTEXT_PROVIDED).
Proof.
  apply (empty_context_is_no_context ("   "%string) [] 50). reflexivity.
Defined.

(** C5.  A context whose stripped length is positive but below the minimum
    is refused as [context_too_brief], whatever the query: the length check
    comes before the relevance check, so the reason is never
    [no_relevance]. *)
Theorem brief_context_is_context_too_brief :
  forall (context query : str) (min_context_length : Z),
    0 < len (strip context) < min_context_length ->
    let d := should_refuse_answer context query min_context_length in
    should_refuse d = true /\
    reason d = Some ("context_too_brief"%string : str) /\
    reason d <> Some ("no_relevance"%string : str) /\
    refusal_type d = Some (value CONTEXT_TOO_BRIEF) /\
    message d = Some (refusal_messages CONTEXT_TOO_BRIEF).
Proof.
  intros context query m [Hpos Hlt]. unfold should_refuse_answer.
  assert (Ht : truthy context = true).
  { destruct context; [rewrite strip_nil in Hpos; discriminate | reflexivity]. }
  rewrite Ht. simpl negb. simpl orb.
  destruct (len (strip context) =? 0) eqn:E0; [apply Z.eqb_eq in E0; lia|].
  destruct (len (strip context) <? m) eqn:E1;
    [| apply Z.ltb_ge in E1; lia].
  unfold generate_context_insufficient_refusal. rewrite E0, E1. simpl.
  repeat split. discriminate.
Qed.

Lemma brief_context_is_context_too_brief_witness :
  let d := should_refuse_answer ("ROS."%string) ("How do I install ROS 2?"%string) 50 in
  should_refuse d = true /\
  reason d = Some ("context_too_brief"%string : str) /\
  reason d <> Some ("no_relevance"%string : str) /\
  refusal_type d = Some (value CONTEXT_TOO_BRIEF) /\
  message d = Some (refusal_messages CONTEXT_TOO_BRIEF).
Proof.
  apply (brief_context_is_context_too_brief
           ("ROS."%string) ("How do I install ROS 2?"%string) 50).
  vm_compute. split; reflexivity.
Defined.

(** C4.  A non-empty context that is long enough and shares a lowercase
    whitespace-split word with the query is not refused. *)
Theorem shared_word_is_not_refused :
  forall (context query w : str) (min_context_length : Z),
    context <> [] ->
    min_context_length <= len (strip context) ->
    In w (split_ws (lower query)) ->
    In w (split_ws (lower context)) ->
    should_refuse (should_refuse_answer context query min_context_length)
    = false.
Proof.
  intros context query w m Hne Hlen Hq Hc. unfold should_refuse_answer.
  assert (Ht : truthy context = true).
  { destruct context; [exfalso; apply Hne; reflexivity | reflexivity]. }
  rewrite Ht. simpl negb. simpl orb.
  pose proof (word_of_lower_not_blank _ _ Hc) as Hs.
  destruct (len (strip context) =? 0) eqn:E0.
  { apply Z.eqb_eq, len_zero_nil in E0. contradiction. }
  destruct (len (strip context) <? m) eqn:E1;
    [apply Z.ltb_lt in E1; lia|].
  set (common := intersection _ _).
  assert (Hin : In w common).
  { apply In_intersection. split; apply In_pyset; assumption. }
  destruct (len common =? 0) eqn:E2.
  { apply Z.eqb_eq, len_zero_nil in E2. rewrite E2 in Hin. destruct Hin. }
  reflexivity.
Qed.

Lemma shared_word_is_not_refused_witness :
  should_refuse
    (should_refuse_answer
       ("ROS 2 is a flexible framework for developing robot applications."%string)
       ("What is ROS 2?"%string) 50)
  = false.
Proof.
  apply (shared_word_is_not_refused
           ("ROS 2 is a flexible framework for developing robot applications."%string)
           ("What is ROS 2?"%string) ("is"%string) 50).
  - discriminate.
  - vm_compute. discriminate.
  - vm_compute. tauto.
  - vm_compute. tauto.
Defined.

(** ** The grounding validator *)

Import HallucinationPrevention.

Lemma check_sentence_unfold (cw : list str) (v : Validation) (s : str) :
  check_sentence cw v s =
  if is_unsupported cw s
  then mkValidation false true (issues v ++ [potential_hallucination s])
                    (confidence_score v)
  else v.
Proof.
  unfold check_sentence, is_unsupported.
  destruct (5 <? _); simpl; [|reflexivity].
  destruct (_ =? 0); reflexivity.
Qed.

(** The loop over the sentences appends one issue per flagged sentence and
    clears [is_valid] as soon as there is one. *)
Lemma fold_check_sentence (cw : list str) (ss : list str) :
  forall v : Validation,
    fold_left (check_sentence cw) ss v =
    match filter (is_unsupported cw) ss with
    | [] => v
    | (_ :: _) as flagged =>
        mkValidation false true
          (issues v ++ map potential_hallucination flagged)
          (confidence_score v)
    end.
Proof.
  induction ss as [|s ss IH]; intros v; simpl; [reflexivity|].
  rewrite IH, check_sentence_unfold.
  destruct (is_unsupported cw s); simpl.
  - destruct (filter (is_unsupported cw) ss) as [|f fl]; simpl;
      [reflexivity|].
    rewrite <- app_assoc. reflexivity.
  - reflexivity.
Qed.

(** What [validate_response_for_hallucinations] returns, field by field. *)
Lemma validate_fields (response context : str) :
  let v := validate_response_for_hallucinations response context in
  let flagged :=
    detect_patterns (lower response)
    ++ map potential_hallucination (unsupported_sentences response context) in
  issues v = flagged /\
  is_valid v = (match flagged with [] => true | _ :: _ => false end) /\
  hallucination_detected v = negb (is_valid v) /\
  confidence_score v =
    float_max 0%float (1 - float_of_count (List.length flagged) * 0.1)%float.
Proof.
  unfold validate_response_for_hallucinations, unsupported_sentences.
  set (dp := detect_patterns (lower response)).
  set (cw := pyset (split_ws (lower context))).
  destruct (truthy context && truthy response).
  - rewrite fold_check_sentence.
    destruct (filter (is_unsupported cw) (split_on "." response)) as [|f fl];
      destruct dp as [|d dl]; simpl; repeat split;
      rewrite ?app_nil_r; reflexivity.
  - destruct dp as [|d dl]; simpl; repeat split;
      rewrite ?app_nil_r; reflexivity.
Qed.

Lemma startswith_lower (p s : str) :
  startswith p s = true -> startswith (lower p) (lower s) = true.
Proof.
  revert s. induction p as [|a p IH]; intros [|b s]; simpl; auto.
  intros H. apply andb_true_iff in H. destruct H as [Hab Hp].
  apply Ascii.eqb_eq in Hab. subst. rewrite Ascii.eqb_refl. simpl. auto.
Qed.

(** Case folding keeps occurrences. *)
Lemma str_in_lower (p s : str) :
  str_in p s = true -> str_in (lower p) (lower s) = true.
Proof.
  induction s as [|b s IH]; simpl; intros H.
  - rewrite orb_false_r in *. apply (startswith_lower p []). exact H.
  - apply orb_true_iff in H. apply orb_true_iff. destruct H as [H|H].
    + left. apply (startswith_lower p (b :: s)). exact H.
    + right. auto.
Qed.

Lemma In_detect_patterns (p r : str) :
  In p (detect_patterns r) <->
  In p hallucination_patterns /\ str_in p r = true.
Proof. unfold detect_patterns. rewrite filter_In. unfold re_search. tauto. Qed.

(** C9.  The report of [validate_response_for_hallucinations]: the flagged
    items are the patterns found in the lowercased answer followed by one
    entry per unsupported sentence; the confidence is
    [max(0.0, 1.0 - count * 0.1)] over their number (in binary64 arithmetic,
    as the program computes it); the answer is valid exactly when neither
    pass flagged anything; and an answer containing the phrase
    "according to my training data", in any letter case, is reported invalid
    with that pattern among the issues. *)
Theorem validation_report :
  forall (response context : str),
    let v := validate_response_for_hallucinations response context in
    let patterns_found := detect_patterns (lower response) in
    let unsupported := unsupported_sentences response context in
    issues v = patterns_found ++ map potential_hallucination unsupported /\
    confidence_score v =
      float_max 0%float
        (1 - float_of_count (List.length patterns_found
                             + List.length unsupported) * 0.1)%float /\
    (is_valid v = true <-> patterns_found = [] /\ unsupported = []) /\
    hallucination_detected v = negb (is_valid v) /\
    (str_in training_data_phrase response = true
     \/ str_in training_data_phrase (lower response) = true ->
     is_valid v = false /\ hallucination_detected v = true /\
     In training_data_phrase (issues v)).
Proof.
  intros response context v patterns_found unsupported.
  destruct (validate_fields response context) as (Hi & Hv & Hd & Hc).
  fold v patterns_found unsupported in Hi, Hv, Hd, Hc.
  assert (Hgrounded :
            is_valid v = true <-> patterns_found = [] /\ unsupported = []).
  { rewrite Hv. destruct patterns_found as [|p ps]; simpl.
    - destruct unsupported; simpl; split; intros H;
        try reflexivity; try discriminate; try (split; reflexivity).
      destruct H as [_ H]. discriminate.
    - split; [discriminate | intros [H _]; discriminate]. }
  split; [exact Hi|]. split.
  { rewrite Hc, length_app, length_map. reflexivity. }
  split; [exact Hgrounded|]. split; [exact Hd|].
  intros Hphrase.
  assert (Hlow : str_in training_data_phrase (lower response) = true).
  { destruct Hphrase as [H|H]; [|exact H].
    apply str_in_lower in H. exact H. }
  assert (Hin : In training_data_phrase patterns_found).
  { apply In_detect_patterns. split; [|exact Hlow]. simpl. left. reflexivity. }
  assert (Hnv : is_valid v = false).
  { destruct (is_valid v) eqn:E; [|reflexivity].
    destruct Hgrounded as [Hg _]. destruct (Hg eq_refl) as [Hp _].
    rewrite Hp in Hin. destruct Hin. }
  split; [exact Hnv|]. split; [rewrite Hd, Hnv; reflexivity|].
  rewrite Hi. apply in_or_app. left. exact Hin.
Qed.

(** Scenario D of the specification, through [validation_report]. *)
Lemma validation_report_witness :
  let v := validate_response_for_hallucinations
             ("According to my training data, ROS 2 was made in 2010."%string)
             ("ROS 2 is a robotics framework."%string) in
  is_valid v = false /\ hallucination_detected v = true /\
  In training_data_phrase (issues v).
Proof.
  apply (validation_report
           ("According to my training data, ROS 2 was made in 2010."%string)
           ("ROS 2 is a robotics framework."%string)).
  right. vm_compute. reflexivity.
Defined.

(** C10.  When no pattern occurs in the lowercased answer and the context is
    the empty string, the sentence pass does not run: nothing is flagged,
    the answer is valid and the confidence is [1.0], whatever the answer
    says. *)
Theorem empty_context_skips_grounding :
  forall (response : str),
    detect_patterns (lower response) = [] ->
    let v := validate_response_for_hallucinations response [] in
    unsupported_sentences response [] = [] /\
    issues v = [] /\
    hallucination_detected v = false /\
    is_valid v = true /\
    confidence_score v = 1%float.
Proof.
  intros response Hnone v.
  destruct (validate_fields response []) as (Hi & Hv & Hd & Hc).
  fold v in Hi, Hv, Hd, Hc.
  assert (Hu : unsupported_sentences response [] = []) by reflexivity.
  rewrite Hnone, Hu in Hi, Hv, Hc.
  change (issues v = []) in Hi. change (is_valid v = true) in Hv.
  change (confidence_score v
          = float_max 0%float (1 - float_of_count 0 * 0.1)%float) in Hc.
  rewrite Hd, Hv. repeat split; assumption.
Qed.

Lemma empty_context_skips_grounding_witness :
  let v := validate_response_for_hallucinations
             ("Robots on the moon drink seven cups of green tea every single morning."%string)
             [] in
  unsupported_sentences
    ("Robots on the moon drink seven cups of green tea every single morning."%string)
    [] = [] /\
  issues v = [] /\
  hallucination_detected v = false /\
  is_valid v = true /\
  confidence_score v = 1%float.
Proof.
  apply (empty_context_skips_grounding
           ("Robots on the moon drink seven cups of green tea every single morning."%string)).
  vm_compute. reflexivity.
Defined.

(** [refine_response] returns the refined text only when
    [_response_is_contextually_valid] accepts it. *)
Lemma refine_response_invalid (response context : str) :
  _response_is_contextually_valid (strip_patterns response) context = false ->
  refine_response response context = refusal_messages INSUFFICIENT_CONTEXT.
Proof.
  intros H. unfold refine_response. rewrite H. reflexivity.
Qed.

(** C3, as stated, fails: the answer below is refined to a text of which one
    word in five occurs in the context (ratio 0.2, below 0.3), and
    [refine_response] answers with the canonical message of
    [INSUFFICIENT_CONTEXT], which is not the one of
    [HALLUCINATION_PREVENTION]; the pipeline hands that same message on. *)
Lemma refine_refusal_is_hallucination_message_counterexample :
  let response : str := "I think so. Cats purr loudly at night."%string in
  let context : str := "the robots at work"%string in
  strip_patterns response = ("Cats purr loudly at night. "%string : str) /\
  PrimFloat.ltb (overlap_ratio (strip_patterns response) context) 0.3%float
  = true /\
  refine_response response context
  = get_refusal_message INSUFFICIENT_CONTEXT None /\
  refine_response response context
  <> get_refusal_message HALLUCINATION_PREVENTION None /\
  refined_response
    (run_hallucination_prevention_pipeline [] context response)
  = Some (get_refusal_message INSUFFICIENT_CONTEXT None).
Proof.
  vm_compute. repeat split; try reflexivity. discriminate.
Qed.

(** C3, amended.  When the refined answer is empty, or the context is empty,
    or they share no word, or the overlap ratio fails the [>= 0.3] test,
    [refine_response] discards the refinement and returns the canonical
    message of [INSUFFICIENT_CONTEXT], never the partly cleaned answer. *)
Theorem refine_discards_ungrounded_refinement :
  forall (response context : str),
    let refined := strip_patterns response in
    let response_words := pyset (split_ws (lower refined)) in
    let context_words := pyset (split_ws (lower context)) in
    refined = [] \/ context = []
    \/ intersection response_words context_words = []
    \/ PrimFloat.leb 0.3%float (overlap_ratio refined context) = false ->
    refine_response response context
    = get_refusal_message INSUFFICIENT_CONTEXT None.
Proof.
  intros response context refined response_words context_words H.
  apply refine_response_invalid. fold refined.
  unfold _response_is_contextually_valid.
  destruct context as [|c context']; [reflexivity|].
  destruct refined as [|r refined'] eqn:Er; [reflexivity|].
  simpl truthy. simpl negb. simpl orb. cbv iota.
  fold response_words context_words.
  destruct H as [H | [H | [H | H]]]; try discriminate.
  - rewrite H. reflexivity.
  - destruct (len (intersection response_words context_words) =? 0);
      [reflexivity | exact H].
Qed.

Lemma refine_discards_ungrounded_refinement_witness :
  refine_response ("I think so. Cats purr loudly at night."%string)
                  ("the robots at work"%string)
  = get_refusal_message INSUFFICIENT_CONTEXT None.
Proof.
  apply (refine_discards_ungrounded_refinement
           ("I think so. Cats purr loudly at night."%string)
           ("the robots at work"%string)).
  right. right. right. vm_compute. reflexivity.
Defined.

(** ** Word counts *)

Import MinimumTextRetriever.

Lemma split_ws_from_app_space (a : str) :
  forall (cur b : str) (c : ascii),
    is_space c = true ->
    List.length (split_ws_from cur (a ++ c :: b))
    = (List.length (split_ws_from cur a)
       + List.length (split_ws_from [] b))%nat.
Proof.
  induction a as [|x a IH]; intros cur b c Hc; simpl.
  - rewrite Hc. destruct cur; reflexivity.
  - destruct (is_space x).
    + destruct cur; simpl; rewrite (IH [] b c Hc); reflexivity.
    + apply IH. exact Hc.
Qed.

(** Joining two texts with a blank line adds their word counts. *)
Lemma token_count_blank_line (a b : str) :
  _calculate_token_count (a ++ [ascii_of_nat 10; ascii_of_nat 10] ++ b)
  = _calculate_token_count a + _calculate_token_count b.
Proof.
  unfold _calculate_token_count, len, split_ws. simpl app.
  rewrite split_ws_from_app_space by reflexivity.
  simpl split_ws_from at 2. lia.
Qed.

Lemma token_count_nonneg (s : str) : 0 <= _calculate_token_count s.
Proof. apply len_nonneg. Qed.

(** ** The loop over the search results *)

Lemma add_excerpt_counted (r : Result) (chunk : Chunk) (e : str) :
  counted r -> counted (add_excerpt r chunk e (_calculate_token_count e)).
Proof.
  unfold counted, add_excerpt. cbn [token_count context]. intros H.
  destruct (truthy (context r)) eqn:E.
  - rewrite token_count_blank_line, H. reflexivity.
  - destruct (context r); [|discriminate]. rewrite H. reflexivity.
Qed.

Lemma process_results_counted (k : Z) (q : str) (chunks : list Chunk) :
  forall (r : Result) (rem : Z),
    counted r -> counted (process_results k q chunks r rem).
Proof.
  induction chunks as [|chunk rest IH]; intros r rem Hr; simpl; [exact Hr|].
  destruct (rem <=? 0); [exact Hr|].
  destruct (negb _); [apply IH; exact Hr|].
  destruct (_ <=? rem); apply IH; [apply add_excerpt_counted|]; exact Hr.
Qed.

(** The loop never spends more than the remaining budget, and never lowers
    the counter. *)
Lemma process_results_budget (k : Z) (q : str) (chunks : list Chunk) :
  forall (r : Result) (rem : Z),
    0 <= rem ->
    token_count r <= token_count (process_results k q chunks r rem)
                  <= token_count r + rem.
Proof.
  induction chunks as [|chunk rest IH]; intros r rem Hrem; simpl; [lia|].
  destruct (rem <=? 0); [lia|].
  destruct (negb _); [apply IH; exact Hrem|].
  set (e := _find_relevant_sentences (content chunk) q k).
  destruct (_calculate_token_count e <=? rem) eqn:E; [|apply IH; exact Hrem].
  apply Z.leb_le in E. pose proof (token_count_nonneg e) as He.
  assert (Hn : 0 <= rem - _calculate_token_count e) by lia.
  specialize (IH (add_excerpt r chunk e (_calculate_token_count e)) _ Hn).
  change (token_count (add_excerpt r chunk e (_calculate_token_count e)))
    with (token_count r + _calculate_token_count e) in IH.
  lia.
Qed.

(** ** The context assembler *)

(** The result before any search: the excerpt, when one is supplied. *)
Lemma retrieve_minimum_context_cases
    (q : str) (selected_text : option str) (max_tokens min_tokens : Z)
    (self : Retriever) :
  let r := fst (retrieve_minimum_context q selected_text max_tokens min_tokens
                                         self) in
  exists r0 : Result,
    counted r0 /\ token_count r0 = excerpt_words selected_text /\
    (r = r0 \/
     token_count r0 < max_tokens /\
     exists chunks b,
       r = set_is_sufficient
             (process_results 3 q chunks r0 (max_tokens - token_count r0)) b).
Proof.
  unfold retrieve_minimum_context, bind, ensure_connection, connect_to_db,
    execute_search, ret.
  set (init := mkResult [] [] 0 (provided selected_text) q false).
  set (r0 := match selected_text with
             | Some s =>
                 if truthy s
                 then mkResult s (sources init ++ [user_selected_label])
                        (_calculate_token_count s) (selected_text_used init)
                        (query init) (min_tokens <=? _calculate_token_count s)
                 else init
             | None => init
             end).
  assert (H0 : counted r0 /\ token_count r0 = excerpt_words selected_text).
  { unfold r0, counted. destruct selected_text as [[|c s]|]; simpl;
      split; reflexivity. }
  destruct H0 as [Hc Ht].
  exists r0. split; [exact Hc|]. split; [exact Ht|].
  destruct (connection self);
    destruct (provided selected_text && (token_count r0 <=? max_tokens)
              && is_sufficient r0); simpl; try (left; reflexivity);
    destruct (token_count r0 <? max_tokens) eqn:E; simpl;
    try (left; reflexivity);
    right; (split; [apply Z.ltb_lt; exact E|]); eexists; eexists; reflexivity.
Qed.

(** C1, as stated, fails: a three-word excerpt with [max_tokens = 2] is
    returned whole, with [token_count = 3]. *)
Lemma token_count_within_max_tokens_counterexample :
  let self := mkRetriever (mkDatabase (fun _ _ => [])) false [] in
  let r := fst (retrieve_minimum_context ("what is it"%string)
                  (Some ("alpha beta gamma"%string : str)) 2 1 self) in
  context r = ("alpha beta gamma"%string : str) /\
  token_count r = 3 /\
  _calculate_token_count (context r) = 3 /\
  ~ token_count r <= 2.
Proof.
  vm_compute. repeat split; try reflexivity. intros H. apply H. reflexivity.
Qed.

(** C1, amended.  The counter of the returned result is the whitespace word
    count of the assembled text, and it never exceeds the larger of
    [max_tokens] and the word count of the supplied excerpt (taken as 0
    when there is none): the search only fills what the excerpt leaves of the
    budget, and the excerpt itself is never cut. *)
Theorem token_count_within_budget_or_excerpt :
  forall (q : str) (selected_text : option str) (max_tokens min_tokens : Z)
         (self : Retriever),
    let r := fst (retrieve_minimum_context q selected_text max_tokens
                                           min_tokens self) in
    token_count r = _calculate_token_count (context r) /\
    excerpt_words selected_text <= token_count r
      <= Z.max max_tokens (excerpt_words selected_text).
Proof.
  intros q selected_text max_tokens min_tokens self r.
  destruct (retrieve_minimum_context_cases q selected_text max_tokens
              min_tokens self) as (r0 & Hc & Ht & Hr).
  fold r in Hr. destruct Hr as [Hr | (Hlt & chunks & b & Hr)].
  - rewrite Hr. split; [exact Hc | lia].
  - rewrite Hr. unfold set_is_sufficient. cbn [token_count context].
    split.
    + apply process_results_counted. exact Hc.
    + pose proof (process_results_budget 3 q chunks r0
                    (max_tokens - token_count r0)) as Hb.
      lia.
Qed.

(** C7, as stated, fails for the empty excerpt: its word count 0 lies
    between [min_tokens = 0] and [max_tokens = 10], yet [if selected_text:]
    treats it as absent; the corpus is searched and the sources are not the
    user-selected label. *)
Lemma excerpt_within_bounds_counterexample :
  let chunk := mkChunk ("c1"%string) ("ch1"%string) (Some ("s1"%string : str))
                 ("Intro"%string) ("A robot moves. It is red."%string)
                 (Some 6) in
  let self := mkRetriever (mkDatabase (fun _ _ => [chunk])) true [] in
  let out := retrieve_minimum_context ("robot"%string) (Some []) 10 0 self in
  0 <= _calculate_token_count [] <= 10 /\
  executed (snd out) = [(("robot"%string : str), 10)] /\
  context (fst out) = ("A robot moves."%string : str) /\
  sources (fst out) = [("ch1/s1 - Intro"%string : str)] /\
  sources (fst out) <> [user_selected_label].
Proof.
  vm_compute. repeat split; try reflexivity; discriminate.
Qed.

(** C7, amended.  A non-empty excerpt whose word count lies between
    [min_tokens] and [max_tokens] is returned verbatim, with the
    user-selected label as only source, marked sufficient; the retriever is
    left connected and no statement is sent to the corpus store. *)
Theorem excerpt_within_bounds_returned_verbatim :
  forall (q s : str) (max_tokens min_tokens : Z) (self : Retriever),
    s <> [] ->
    min_tokens <= _calculate_token_count s <= max_tokens ->
    retrieve_minimum_context q (Some s) max_tokens min_tokens self
    = (mkResult s [user_selected_label] (_calculate_token_count s) true q true,
       mkRetriever (database self) true (executed self)).
Proof.
  intros q s max_tokens min_tokens self Hs [Hmin Hmax].
  assert (Ht : truthy s = true)
    by (destruct s; [contradiction Hs; reflexivity | reflexivity]).
  assert (E1 : (_calculate_token_count s <=? max_tokens) = true)
    by (apply Z.leb_le; exact Hmax).
  assert (E2 : (min_tokens <=? _calculate_token_count s) = true)
    by (apply Z.leb_le; exact Hmin).
  unfold retrieve_minimum_context, bind, ensure_connection, connect_to_db, ret.
  cbn [provided]. rewrite Ht. cbn [token_count is_sufficient]. rewrite E1, E2.
  destruct self as [db [|] ex]; reflexivity.
Qed.

Lemma excerpt_within_bounds_returned_verbatim_witness :
  retrieve_minimum_context ("What is ROS 2 for?"%string)
    (Some ("ROS 2 is designed for large development efforts."%string : str))
    50 5 (mkRetriever (mkDatabase (fun _ _ => [])) false [])
  = (mkResult ("ROS 2 is designed for large development efforts."%string)
       [user_selected_label] 8 true ("What is ROS 2 for?"%string) true,
     mkRetriever (mkDatabase (fun _ _ => [])) true []).
Proof.
  apply (excerpt_within_bounds_returned_verbatim
           ("What is ROS 2 for?"%string)
           ("ROS 2 is designed for large development efforts."%string)
           50 5 (mkRetriever (mkDatabase (fun _ _ => [])) false [])).
  - discriminate.
  - vm_compute. split; discriminate.
Defined.

(** ** The sentence relevance scorer *)

Lemma In_insert_desc (x y : str * Z) (l : list (str * Z)) :
  In x (insert_desc y l) -> x = y \/ In x l.
Proof.
  induction l as [|z l IH]; simpl.
  - intros [H|[]]. left. symmetry. exact H.
  - destruct (snd y <? snd z); simpl.
    + intros [H|H]; [right; left; exact H|].
      destruct (IH H) as [H'|H']; [left | right; right]; exact H'.
    + intros [H|H]; [left; symmetry; exact H | right; exact H].
Qed.

(** Sorting only rearranges. *)
Lemma In_sort_desc (x : str * Z) (l : list (str * Z)) :
  In x (sort_desc l) -> In x l.
Proof.
  induction l as [|y l IH]; simpl; [tauto|].
  intros H. apply In_insert_desc in H. destruct H as [H|H].
  - left. symmetry. exact H.
  - right. apply IH. exact H.
Qed.

Lemma In_firstn {A : Type} (x : A) (n : nat) (l : list A) :
  In x (firstn n l) -> In x l.
Proof.
  revert l. induction n as [|n IH]; intros [|a l]; simpl; try tauto.
  intros [H|H]; [left; exact H | right; apply IH; exact H].
Qed.

Lemma In_slice_to {A : Type} (x : A) (k : Z) (l : list A) :
  In x (slice_to k l) -> In x l.
Proof. unfold slice_to. destruct (0 <=? k); apply In_firstn. Qed.

Lemma length_slice_to {A : Type} (k : Z) (l : list A) :
  0 <= k -> len (slice_to k l) <= k.
Proof.
  intros Hk. unfold slice_to, len.
  destruct (0 <=? k) eqn:E; [|apply Z.leb_gt in E; lia].
  pose proof (firstn_le_length (Z.to_nat k) l). lia.
Qed.

Lemma length_filter_le {A : Type} (f : A -> bool) (l : list A) :
  (List.length (filter f l) <= List.length l)%nat.
Proof.
  induction l as [|a l IH]; simpl; [lia|]. destruct (f a); simpl; lia.
Qed.

(** Every sentence kept is a sentence of the text with a positive score. *)
Lemma In_top_sentences (text q : str) (k : Z) (s : str) :
  In s (top_sentences text q k) ->
  In s (split_sentences text)
  /\ 0 < sentence_score (split_ws (lower q)) s.
Proof.
  unfold top_sentences. intros H. apply in_map_iff in H.
  destruct H as [[s' n] [Hs H]]. simpl in Hs. subst s'.
  apply filter_In in H. destruct H as [H Hpos]. simpl in Hpos.
  apply In_slice_to, In_sort_desc, in_map_iff in H.
  destruct H as [s' [He Hin]]. inversion He; subst.
  split; [exact Hin | apply Z.ltb_lt; exact Hpos].
Qed.

(** At most [max_sentences] sentences are kept, when that is not negative. *)
Lemma length_top_sentences (text q : str) (k : Z) :
  0 <= k -> len (top_sentences text q k) <= k.
Proof.
  intros Hk. unfold top_sentences.
  set (sorted := sort_desc _).
  pose proof (length_slice_to k sorted Hk) as Hs.
  pose proof (length_filter_le (fun s : str * Z => 0 <? snd s)
                (slice_to k sorted)) as Hf.
  unfold len in *. rewrite length_map. lia.
Qed.

Lemma sentence_score_from (terms : list str) (s : str) :
  (forall t, In t terms -> str_in t (lower s) = false) ->
  forall acc : Z,
    fold_left (fun score term =>
                 if str_in term (lower s) then score + 1 else score)
              terms acc = acc.
Proof.
  induction terms as [|t terms IH]; intros H acc; simpl; [reflexivity|].
  rewrite (H t (or_introl eq_refl)). apply IH.
  intros t' Ht'. apply H. right. exact Ht'.
Qed.

(** A sentence in which no query term occurs scores zero. *)
Lemma sentence_score_zero (terms : list str) (s : str) :
  (forall t, In t terms -> str_in t (lower s) = false) ->
  sentence_score terms s = 0.
Proof. intros H. unfold sentence_score. apply sentence_score_from. exact H. Qed.

(** When no sentence contains a query term, no sentence is kept. *)
Lemma top_sentences_no_match (text q : str) (k : Z) :
  (forall s t, In s (split_sentences text) -> In t (split_ws (lower q)) ->
               str_in t (lower s) = false) ->
  top_sentences text q k = [].
Proof.
  intros H. destruct (top_sentences text q k) as [|s l] eqn:E; [reflexivity|].
  assert (Hin : In s (top_sentences text q k)) by (rewrite E; left; reflexivity).
  apply In_top_sentences in Hin. destruct Hin as [Hs Hpos].
  rewrite sentence_score_zero in Hpos; [lia|].
  intros t Ht. apply H; assumption.
Qed.

(** The returned string always ends in a period, so it is never blank. *)
Lemma find_relevant_sentences_not_blank (text q : str) (k : Z) :
  truthy (strip (_find_relevant_sentences text q k)) = true.
Proof.
  destruct (strip (_find_relevant_sentences text q k)) eqn:E; [|reflexivity].
  apply strip_nil_iff in E. unfold _find_relevant_sentences in E.
  rewrite forallb_app in E. apply andb_true_iff in E.
  destruct E as [_ E]. discriminate.
Qed.

(** C2.  The code departs from the claim: when no sentence of the text
    contains a query term, [_find_relevant_sentences] returns ["."], not the
    empty string, and the test [if not relevant_excerpt.strip()] of the
    assembler does not fire: as long as budget remains, the chunk adds the
    excerpt ["."], one token and its source label to the result. *)
Theorem no_match_yields_period_and_chunk_is_kept :
  forall (text q : str) (k : Z),
    (forall s t, In s (split_sentences text) -> In t (split_ws (lower q)) ->
                 str_in t (lower s) = false) ->
    _find_relevant_sentences text q k = ("."%string : str) /\
    _find_relevant_sentences text q k <> [] /\
    forall (chunk : Chunk) (rest : list Chunk) (r : Result) (rem : Z),
      content chunk = text -> 0 < rem ->
      process_results k q (chunk :: rest) r rem
      = process_results k q rest (add_excerpt r chunk ("."%string) 1) (rem - 1).
Proof.
  intros text q k H.
  assert (E : _find_relevant_sentences text q k = ("."%string : str)).
  { unfold _find_relevant_sentences.
    rewrite (top_sentences_no_match text q k H). reflexivity. }
  split; [exact E|]. split; [rewrite E; discriminate|].
  intros chunk rest r rem Hc Hrem. simpl. rewrite Hc, E.
  destruct (rem <=? 0) eqn:E0; [apply Z.leb_le in E0; lia|].
  change (negb (truthy (strip ("."%string : str)))) with false. cbv iota.
  change (_calculate_token_count ("."%string : str)) with 1.
  destruct (1 <=? rem) eqn:E1; [reflexivity | apply Z.leb_gt in E1; lia].
Qed.

Lemma no_match_yields_period_and_chunk_is_kept_witness :
  let chunk := mkChunk ("c1"%string) ("ch1"%string) (Some ("s1"%string : str))
                 ("Intro"%string) ("Hello world. Nice day."%string)
                 (Some 4) in
  let r := process_results 3 ("robot"%string) [chunk]
             (mkResult [] [] 0 false ("robot"%string) false) 10 in
  _find_relevant_sentences ("Hello world. Nice day."%string) ("robot"%string) 3
  = ("."%string : str) /\
  context r = ("."%string : str) /\
  token_count r = 1 /\
  sources r = [("ch1/s1 - Intro"%string : str)].
Proof.
  destruct (no_match_yields_period_and_chunk_is_kept
              ("Hello world. Nice day."%string) ("robot"%string) 3)
    as (E & _ & Hloop).
  - intros s t Hs Ht. vm_compute in Hs, Ht.
    destruct Ht as [Ht|[]]. subst t.
    destruct Hs as [Hs|[Hs|[]]]; subst s; reflexivity.
  - split; [exact E|].
    rewrite (Hloop (mkChunk ("c1"%string) ("ch1"%string)
                      (Some ("s1"%string : str)) ("Intro"%string)
                      ("Hello world. Nice day."%string) (Some 4))
                   [] _ 10 eq_refl eq_refl).
    vm_compute. repeat split.
Defined.

(** ** Sentences of the returned selection *)

Lemma dropwhile_app_stop {A : Type} (p : A -> bool) (l m : list A) (a : A) :
  p a = false -> dropwhile p (l ++ a :: m) = dropwhile p l ++ a :: m.
Proof.
  intros Ha. induction l as [|x l IH]; simpl.
  - rewrite Ha. reflexivity.
  - destruct (p x); [exact IH | reflexivity].
Qed.

Lemma dropwhile_idem {A : Type} (p : A -> bool) (l : list A) :
  dropwhile p (dropwhile p l) = dropwhile p l.
Proof.
  pose proof (dropwhile_head p l) as H.
  destruct (dropwhile p l) as [|a t]; [reflexivity|].
  simpl. rewrite H. reflexivity.
Qed.

Lemma forallb_dropwhile {A : Type} (f p : A -> bool) (l : list A) :
  forallb f l = true -> forallb f (dropwhile p l) = true.
Proof.
  induction l as [|a l IH]; simpl; [reflexivity|].
  intros H. destruct (p a); [|exact H].
  apply andb_true_iff in H. apply IH, H.
Qed.

Lemma forallb_strip (f : ascii -> bool) (s : str) :
  forallb f s = true -> forallb f (strip s) = true.
Proof.
  intros H. unfold strip, rstrip, lstrip.
  rewrite forallb_rev. apply forallb_dropwhile.
  rewrite forallb_rev. apply forallb_dropwhile. exact H.
Qed.

(** A stripped string does not start with whitespace. *)
Lemma lstrip_strip (s : str) : lstrip (strip s) = strip s.
Proof.
  unfold strip, rstrip, lstrip. pose proof (dropwhile_head is_space s) as Hh.
  destruct (dropwhile is_space s) as [|a v]; [reflexivity|].
  simpl rev. rewrite dropwhile_app_stop by exact Hh.
  rewrite rev_app_distr. simpl. rewrite Hh. reflexivity.
Qed.

Lemma strip_idempotent (s : str) : strip (strip s) = strip s.
Proof.
  unfold strip at 1. rewrite lstrip_strip.
  unfold rstrip, strip, rstrip. rewrite rev_involutive, dropwhile_idem.
  reflexivity.
Qed.

Lemma strip_space_cons (c : ascii) (s : str) :
  is_space c = true -> strip (c :: s) = strip s.
Proof. intros H. unfold strip, lstrip. simpl. rewrite H. reflexivity. Qed.

(** No piece of [re.split] holds a terminal character. *)
Lemma re_split_terminal_pieces (s : str) :
  forall (in_run : bool) (cur p : str),
    forallb (fun c => negb (is_terminal c)) cur = true ->
    In p (re_split_terminal in_run cur s) ->
    forallb (fun c => negb (is_terminal c)) p = true.
Proof.
  induction s as [|c s IH]; intros in_run cur p Hcur; simpl.
  - intros [H|[]]. subst p. rewrite forallb_rev. exact Hcur.
  - destruct (is_terminal c) eqn:Ec.
    + destruct in_run.
      * apply IH. exact Hcur.
      * intros [H|H].
        -- subst p. rewrite forallb_rev. exact Hcur.
        -- apply (IH true [] p); [reflexivity | exact H].
    + apply IH. simpl. rewrite Ec. exact Hcur.
Qed.

Lemma split_sentences_are_sentences (text s : str) :
  In s (split_sentences text) -> is_sentence s.
Proof.
  unfold split_sentences. intros H. apply filter_In in H.
  destruct H as [H Ht]. apply in_map_iff in H. destruct H as [p [Hp Hin]].
  subst s. repeat split.
  - intros E. rewrite E in Ht. discriminate.
  - apply strip_idempotent.
  - apply forallb_strip.
    apply (re_split_terminal_pieces text false [] p); [reflexivity | exact Hin].
Qed.

(** Reading a stretch without terminal characters up to a period. *)
Lemma re_split_terminal_stretch (t : str) :
  forall (in_run : bool) (cur rest : str),
    forallb (fun c => negb (is_terminal c)) t = true ->
    in_run = false \/ t <> [] ->
    re_split_terminal in_run cur (t ++ "."%char :: rest)
    = (rev cur ++ t) :: re_split_terminal true [] rest.
Proof.
  induction t as [|c t IH]; intros in_run cur rest Ht Hrun; simpl.
  - destruct Hrun as [Hrun|Hrun]; [|contradiction Hrun; reflexivity].
    subst in_run. rewrite app_nil_r. reflexivity.
  - simpl in Ht. apply andb_true_iff in Ht. destruct Ht as [Hc Ht].
    apply negb_true_iff in Hc. rewrite Hc.
    rewrite (IH false (c :: cur) rest Ht (or_introl eq_refl)).
    simpl. rewrite <- app_assoc. reflexivity.
Qed.

(** The pieces [re.split] finds in a selection: the first sentence, the
    others behind the space of their separator, and the empty piece after
    the closing period. *)
Lemma re_split_terminal_join (ts : list str) :
  forall (t : str) (in_run : bool) (cur : str),
    Forall is_sentence (t :: ts) ->
    re_split_terminal in_run cur (join ". "%string (t :: ts) ++ "."%string)
    = (rev cur ++ t) :: map (cons " "%char) ts ++ [[]].
Proof.
  induction ts as [|t2 ts IH]; intros t in_run cur Hall;
    inversion Hall as [|? ? Ht Hts]; subst;
    destruct Ht as (Hne & _ & Hnt).
  - simpl join.
    change (t ++ ("."%string : str)) with (t ++ "."%char :: []).
    rewrite re_split_terminal_stretch by (auto). reflexivity.
  - change (join ". "%string (t :: t2 :: ts))
      with (t ++ ("."%char :: " "%char :: []) ++ join ". "%string (t2 :: ts)).
    rewrite <- !app_assoc.
    change (("."%char :: " "%char :: [])
            ++ join ". "%string (t2 :: ts) ++ ("."%string : str))
      with ("."%char :: " "%char
            :: (join ". "%string (t2 :: ts) ++ ("."%string : str))).
    rewrite re_split_terminal_stretch by (auto).
    change (re_split_terminal true []
              (" "%char :: join ". "%string (t2 :: ts) ++ ("."%string : str)))
      with (re_split_terminal false [" "%char]
              (join ". "%string (t2 :: ts) ++ ("."%string : str))).
    rewrite (IH t2 false [" "%char] Hts). reflexivity.
Qed.

Lemma strip_tail_pieces (ts : list str) :
  Forall is_sentence ts ->
  filter truthy (map strip (map (cons " "%char) ts ++ [[]])) = ts.
Proof.
  induction 1 as [|t ts Ht Hts IH]; [reflexivity|].
  destruct Ht as (Hne & Hst & _). simpl map. simpl app. simpl map.
  rewrite strip_space_cons by reflexivity. rewrite Hst. simpl filter.
  destruct t as [|c t]; [contradiction Hne; reflexivity|].
  simpl truthy. cbv iota. f_equal. exact IH.
Qed.

(** Splitting a selection into sentences, the way the program splits a
    text, gives back the sentences it was joined from. *)
Lemma split_sentences_join (ts : list str) :
  Forall is_sentence ts ->
  split_sentences (join ". "%string ts ++ "."%string) = ts.
Proof.
  intros Hall. destruct ts as [|t ts]; [reflexivity|].
  unfold split_sentences. rewrite (re_split_terminal_join ts t false [] Hall).
  inversion Hall as [|? ? Ht Hts]; subst. destruct Ht as (Hne & Hst & _).
  simpl rev. simpl app at 1. simpl map at 1. rewrite Hst.
  destruct t as [|c t]; [contradiction Hne; reflexivity|].
  simpl filter. f_equal. apply strip_tail_pieces. exact Hts.
Qed.

Lemma top_sentences_are_sentences (text q : str) (k : Z) :
  Forall is_sentence (top_sentences text q k).
Proof.
  apply Forall_forall. intros s Hs. apply In_top_sentences in Hs.
  apply (split_sentences_are_sentences text). apply Hs.
Qed.

(** C8.  [_find_relevant_sentences] is a function of its three arguments
    alone, so two calls on the same text, query and cap return the same
    string, whatever the inputs; the returned selection, split into
    sentences the way the program splits a text, holds exactly the sentences
    kept; and for a cap [max_sentences] (a number of sentences, so not
    negative) these are at most [max_sentences]. *)
Theorem selection_is_deterministic_and_capped :
  forall (text q : str) (k : Z),
    (forall first second : str,
        first = _find_relevant_sentences text q k ->
        second = _find_relevant_sentences text q k ->
        first = second) /\
    split_sentences (_find_relevant_sentences text q k)
    = top_sentences text q k /\
    (0 <= k ->
     len (split_sentences (_find_relevant_sentences text q k)) <= k).
Proof.
  intros text q k. split; [intros a b Ha Hb; congruence|].
  assert (E : split_sentences (_find_relevant_sentences text q k)
              = top_sentences text q k).
  { unfold _find_relevant_sentences. apply split_sentences_join.
    apply top_sentences_are_sentences. }
  split; [exact E|]. intros Hk. rewrite E. apply length_top_sentences.
  exact Hk.
Qed.

Lemma selection_is_deterministic_and_capped_witness :
  len (split_sentences
         (_find_relevant_sentences
            ("Robot one. Robot two. Robot three."%string) ("robot"%string) 2))
  <= 2.
Proof.
  apply (proj2 (proj2 (selection_is_deterministic_and_capped
                         ("Robot one. Robot two. Robot three."%string)
                         ("robot"%string) 2))).
  discriminate.
Defined.

(** * Further properties of the refusal handler *)

Lemma pyset_nil_iff (xs : list str) : pyset xs = [] <-> xs = [].
Proof.
  split; [|intros ->; reflexivity].
  destruct xs as [|x xs]; [reflexivity|]. intros H.
  assert (Hin : In x (pyset (x :: xs))) by (apply In_pyset; left; reflexivity).
  rewrite H in Hin. destruct Hin.
Qed.

Lemma intersection_nil_iff (a b : list str) :
  intersection a b = [] <-> (forall w, In w a -> ~ In w b).
Proof.
  split.
  - intros H w Ha Hb.
    assert (Hin : In w (intersection a b))
      by (apply In_intersection; split; assumption).
    rewrite H in Hin. exact Hin.
  - intros H. destruct (intersection a b) as [|w l] eqn:E; [reflexivity|].
    assert (Hin : In w (intersection a b)) by (rewrite E; left; reflexivity).
    apply In_intersection in Hin. destruct Hin as [Ha Hb].
    exfalso. exact (H w Ha Hb).
Qed.

(** The words two texts share, as the gate computes them. *)
Lemma common_words_nil_iff (q c : str) :
  intersection (pyset (split_ws (lower q))) (pyset (split_ws (lower c))) = []
  <-> (forall w, In w (split_ws (lower q)) -> ~ In w (split_ws (lower c))).
Proof.
  rewrite intersection_nil_iff. split; intros H w Hq Hc.
  - apply (H w); apply In_pyset; assumption.
  - apply (H w); [apply (proj1 (In_pyset w _)) | apply (proj1 (In_pyset w _))];
      assumption.
Qed.

Lemma strip_not_nil_truthy (c : str) : strip c <> [] -> truthy c = true.
Proof. destruct c; [intros H; contradiction H; reflexivity | reflexivity]. Qed.

(** The four outcomes of [should_refuse_answer], each with the condition
    under which the code reaches it. *)
Lemma should_refuse_answer_cases (c q : str) (m : Z) :
  let d := should_refuse_answer c q m in
  let common :=
    intersection (pyset (split_ws (lower q))) (pyset (split_ws (lower c))) in
  (strip c = [] /\
   d = mkDecision true (Some (value NO_CONTEXT_PROVIDED))
         (Some (refusal_messages NO_CONTEXT_PROVIDED))
         (Some ("no_context"%string : str)))
  \/ (strip c <> [] /\ len (strip c) < m /\
      d = mkDecision true (Some (value CONTEXT_TOO_BRIEF))
            (Some (refusal_messages CONTEXT_TOO_BRIEF))
            (Some ("context_too_brief"%string : str)))
  \/ (strip c <> [] /\ m <= len (strip c) /\
      common = [] /\ split_ws (lower q) <> [] /\
      d = mkDecision true (Some (value NO_RELEVANT_CONTENT))
            (Some (refusal_messages NO_RELEVANT_CONTENT))
            (Some ("no_relevance"%string : str)))
  \/ (strip c <> [] /\ m <= len (strip c) /\
      (common <> [] \/ split_ws (lower q) = []) /\
      d = mkDecision false None None None).
Proof.
  intros d common. unfold d, should_refuse_answer. fold common.
  destruct (strip c) as [|x s] eqn:Es.
  - left. split; [reflexivity|].
    change (len (@nil ascii) =? 0) with true. rewrite orb_true_r. reflexivity.
  - assert (Hne : strip c <> []) by (rewrite Es; discriminate).
    rewrite (strip_not_nil_truthy c Hne). rewrite <- Es.
    destruct (len (strip c) =? 0) eqn:E0.
    { apply Z.eqb_eq, len_zero_nil in E0. contradiction. }
    simpl negb. simpl orb. cbv iota. right.
    destruct (len (strip c) <? m) eqn:E1.
    + left. apply Z.ltb_lt in E1. split; [exact Hne|]. split; [exact E1|].
      unfold generate_context_insufficient_refusal. rewrite E0.
      apply Z.ltb_lt in E1. rewrite E1. reflexivity.
    + right. apply Z.ltb_ge in E1.
      destruct (len common =? 0) eqn:E2;
        destruct (0 <? len (pyset (split_ws (lower q)))) eqn:E3;
        simpl andb; cbv iota.
      * left. apply Z.eqb_eq, len_zero_nil in E2. apply Z.ltb_lt in E3.
        repeat split; try assumption.
        intros Hq. rewrite Hq in E3. discriminate.
      * right. apply Z.ltb_ge in E3. repeat split; try assumption.
        right. apply pyset_nil_iff, len_zero_nil.
        pose proof (len_nonneg (pyset (split_ws (lower q)))). lia.
      * right. repeat split; try assumption.
        left. intros Hc. rewrite Hc in E2. discriminate.
      * right. repeat split; try assumption.
        left. intros Hc. rewrite Hc in E2. discriminate.
Qed.

(** X1.  [should_refuse_answer] lets a context through exactly when it is
    not blank, its stripped length reaches the minimum, and either the query
    has no word at all or query and context share a lowercase word. *)
Theorem gate_passes_iff :
  forall (context query : str) (min_context_length : Z),
    should_refuse (should_refuse_answer context query min_context_length)
    = false
    <-> strip context <> []
        /\ min_context_length <= len (strip context)
        /\ (split_ws (lower query) = []
            \/ exists w, In w (split_ws (lower query))
                         /\ In w (split_ws (lower context))).
Proof.
  intros c q m.
  destruct (should_refuse_answer_cases c q m)
    as [(Hs & Hd) | [(Hs & Hl & Hd) | [(Hs & Hl & Hc & Hq & Hd)
                                       | (Hs & Hl & Hc & Hd)]]];
    rewrite Hd; simpl should_refuse.
  - split; [discriminate | intros (H & _); contradiction].
  - split; [discriminate | intros (_ & H & _); lia].
  - split; [discriminate|]. intros (_ & _ & [H | (w & Hwq & Hwc)]).
    + contradiction.
    + exfalso. apply (proj1 (common_words_nil_iff q c) Hc w Hwq Hwc).
  - split; [|reflexivity]. intros _. split; [exact Hs|]. split; [exact Hl|].
    destruct Hc as [Hc | Hq]; [|left; exact Hq].
    right. destruct (intersection _ _) as [|w l] eqn:E;
      [contradiction Hc; reflexivity|].
    assert (Hin : In w (intersection (pyset (split_ws (lower q)))
                          (pyset (split_ws (lower c)))))
      by (rewrite E; left; reflexivity).
    apply In_intersection in Hin. destruct Hin as [Ha Hb].
    exists w. split; apply In_pyset; assumption.
Qed.

(** X2.  Every decision of [should_refuse_answer] is either the plain
    pass, with no type, message or reason, or a refusal that carries the
    value and the canonical message of one of three refusal types, paired
    with its reason; no other type or message is ever produced. *)
Theorem decision_is_canonical :
  forall (context query : str) (min_context_length : Z),
    let d := should_refuse_answer context query min_context_length in
    d = mkDecision false None None None
    \/ exists (t : RefusalType) (r : str),
         In (t, r) [ (NO_CONTEXT_PROVIDED, ("no_context"%string : str));
                     (CONTEXT_TOO_BRIEF, ("context_too_brief"%string : str));
                     (NO_RELEVANT_CONTENT, ("no_relevance"%string : str)) ]
         /\ d = mkDecision true (Some (value t)) (Some (refusal_messages t))
                  (Some r).
Proof.
  intros c q m d.
  destruct (should_refuse_answer_cases c q m)
    as [(_ & Hd) | [(_ & _ & Hd) | [(_ & _ & _ & _ & Hd) | (_ & _ & _ & Hd)]]];
    fold d in Hd.
  - right. exists NO_CONTEXT_PROVIDED, ("no_context"%string : str).
    split; [left; reflexivity | exact Hd].
  - right. exists CONTEXT_TOO_BRIEF, ("context_too_brief"%string : str).
    split; [right; left; reflexivity | exact Hd].
  - right. exists NO_RELEVANT_CONTENT, ("no_relevance"%string : str).
    split; [right; right; left; reflexivity | exact Hd].
  - left. exact Hd.
Qed.

(** X3.  The reason [no_relevance] is given exactly when the context is
    not blank, long enough, the query has at least one word and no lowercase
    word of the query is a word of the context. *)
Theorem no_relevance_iff :
  forall (context query : str) (min_context_length : Z),
    RefusalHandler.reason
      (should_refuse_answer context query min_context_length)
    = Some ("no_relevance"%string : str)
    <-> strip context <> []
        /\ min_context_length <= len (strip context)
        /\ split_ws (lower query) <> []
        /\ (forall w, In w (split_ws (lower query)) ->
                      ~ In w (split_ws (lower context))).
Proof.
  intros c q m.
  destruct (should_refuse_answer_cases c q m)
    as [(Hs & Hd) | [(Hs & Hl & Hd) | [(Hs & Hl & Hc & Hq & Hd)
                                       | (Hs & Hl & Hc & Hd)]]];
    rewrite Hd; simpl RefusalHandler.reason.
  - split; [discriminate | intros (H & _); contradiction].
  - split; [discriminate | intros (_ & H & _); lia].
  - split; [|reflexivity]. intros _. repeat split; try assumption.
    apply common_words_nil_iff. exact Hc.
  - split; [discriminate|]. intros (_ & _ & Hq & Hno). exfalso.
    destruct Hc as [Hc | Hc]; [|contradiction].
    apply Hc. apply common_words_nil_iff. exact Hno.
Qed.

(** ** Occurrences and concatenation *)

Lemma lower_app (a b : str) : lower (a ++ b) = lower a ++ lower b.
Proof. apply map_app. Qed.

Lemma startswith_app_l (p a b : str) :
  startswith p a = true -> startswith p (a ++ b) = true.
Proof.
  revert a. induction p as [|x p IH]; intros [|y a]; simpl; auto.
  - discriminate.
  - intros H. apply andb_true_iff in H. destruct H as [Hxy Hp].
    rewrite Hxy. simpl. auto.
Qed.

Lemma startswith_self_app (p b : str) : startswith p (p ++ b) = true.
Proof.
  induction p as [|x p IH]; simpl; [reflexivity|].
  rewrite Ascii.eqb_refl. exact IH.
Qed.

Lemma str_in_app_l (p a b : str) :
  str_in p a = true -> str_in p (a ++ b) = true.
Proof.
  induction a as [|y a IH]; simpl.
  - rewrite orb_false_r. intros H. destruct p; [|discriminate].
    destruct b; reflexivity.
  - intros H. apply orb_true_iff in H. apply orb_true_iff.
    destruct H as [H|H].
    + left. apply (startswith_app_l p (y :: a) b). exact H.
    + right. auto.
Qed.

Lemma str_in_app_r (p a b : str) :
  str_in p b = true -> str_in p (a ++ b) = true.
Proof.
  intros H. induction a as [|y a IH]; simpl; [exact H|].
  rewrite IH. apply orb_true_r.
Qed.

(** An occurrence inside a part is an occurrence in the whole. *)
Lemma str_in_middle (p a m b : str) :
  str_in p m = true -> str_in p (a ++ m ++ b) = true.
Proof. intros H. apply str_in_app_r, str_in_app_l. exact H. Qed.

(** X4.  Whatever the refusal type and whatever custom context is appended,
    the message of [get_refusal_message] begins with the canonical message
    of the type and, lowercased, contains the words "cannot", "answer" and
    "book" (the elements [validate_proper_refusal_messages] looks for). *)
Theorem refusal_message_keeps_key_elements :
  forall (t : RefusalType) (custom_context : option str),
    let m := get_refusal_message t custom_context in
    startswith (refusal_messages t) m = true /\
    str_in ("cannot"%string) (lower m) = true /\
    str_in ("answer"%string) (lower m) = true /\
    str_in ("book"%string) (lower m) = true.
Proof.
  intros t custom m.
  assert (Hm : exists suffix, m = refusal_messages t ++ suffix).
  { unfold m, get_refusal_message. destruct custom as [c|].
    - destruct (truthy c).
      + eexists. reflexivity.
      + exists []. symmetry. apply app_nil_r.
    - exists []. symmetry. apply app_nil_r. }
  destruct Hm as [suffix Hm]. rewrite Hm. split.
  - apply startswith_self_app.
  - rewrite lower_app.
    repeat split; apply str_in_app_l; destruct t; vm_compute; reflexivity.
Qed.

(** * Further properties of the minimum-text retriever *)

Lemma split_ws_from_nil (s : str) :
  forall cur : str,
    split_ws_from cur s = [] -> cur = [] /\ forallb is_space s = true.
Proof.
  induction s as [|c s IH]; intros cur; simpl.
  - destruct cur; [auto | discriminate].
  - destruct (is_space c).
    + destruct cur; [|discriminate]. intros H.
      destruct (IH [] H) as [_ Hs]. auto.
    + intros H. destruct (IH (c :: cur) H) as [Hc _]. discriminate.
Qed.

Lemma split_ws_nil_iff (s : str) :
  split_ws s = [] <-> forallb is_space s = true.
Proof.
  split; [|apply split_ws_all_space].
  intros H. apply (split_ws_from_nil s [] H).
Qed.

(** A text counts zero tokens exactly when it is blank. *)
Lemma token_count_zero_iff (s : str) :
  _calculate_token_count s = 0 <-> strip s = [].
Proof.
  unfold _calculate_token_count. rewrite len_zero_nil, split_ws_nil_iff.
  symmetry. apply strip_nil_iff.
Qed.

Lemma add_excerpt_nodup (r : Result) (chunk : Chunk) (e : str) (n : Z) :
  NoDup (sources r) -> NoDup (sources (add_excerpt r chunk e n)).
Proof.
  intros H. unfold add_excerpt. cbn [sources].
  destruct (mem (source_ref chunk) (sources r)) eqn:E; [exact H|].
  apply NoDup_app; [exact H | repeat constructor; intros [] |].
  - intros x Hx [Hin|[]]. subst x.
    apply mem_In in Hx. rewrite Hx in E. discriminate.
Qed.

Lemma process_results_nodup (k : Z) (q : str) (chunks : list Chunk) :
  forall (r : Result) (rem : Z),
    NoDup (sources r) -> NoDup (sources (process_results k q chunks r rem)).
Proof.
  induction chunks as [|chunk rest IH]; intros r rem Hr; simpl; [exact Hr|].
  destruct (rem <=? 0); [exact Hr|].
  destruct (negb _); [apply IH; exact Hr|].
  destruct (_ <=? rem); apply IH; [apply add_excerpt_nodup|]; exact Hr.
Qed.

(** The loop only appends to the context and to the sources, and leaves the
    other fields alone. *)
Lemma process_results_extends (k : Z) (q : str) (chunks : list Chunk) :
  forall (r : Result) (rem : Z),
    let r' := process_results k q chunks r rem in
    (exists text, context r' = context r ++ text) /\
    (exists labels, sources r' = sources r ++ labels) /\
    selected_text_used r' = selected_text_used r /\
    query r' = query r /\
    is_sufficient r' = is_sufficient r.
Proof.
  induction chunks as [|chunk rest IH]; intros r rem; simpl.
  - repeat split; try (exists []; symmetry; apply app_nil_r).
  - destruct (rem <=? 0).
    { repeat split; try (exists []; symmetry; apply app_nil_r). }
    destruct (negb _); [apply IH|].
    set (e := _find_relevant_sentences (content chunk) q k).
    destruct (_calculate_token_count e <=? rem); [|apply IH].
    destruct (IH (add_excerpt r chunk e (_calculate_token_count e))
                 (rem - _calculate_token_count e))
      as ((text & Ht) & (labels & Hl) & Hu & Hq & Hs).
    split; [|split; [|split; [|split]]].
    + rewrite Ht. unfold add_excerpt. cbn [context].
      destruct (context r) as [|c s] eqn:Ec.
      * exists (e ++ text). reflexivity.
      * cbn [truthy]. eexists. rewrite <- app_assoc. reflexivity.
    + rewrite Hl. unfold add_excerpt. cbn [sources].
      destruct (mem (source_ref chunk) (sources r)).
      * exists labels. reflexivity.
      * eexists. rewrite <- app_assoc. reflexivity.
    + rewrite Hu. reflexivity.
    + rewrite Hq. reflexivity.
    + rewrite Hs. reflexivity.
Qed.

Lemma process_results_no_budget (k : Z) (q : str) (chunks : list Chunk)
    (r : Result) (rem : Z) :
  rem <= 0 -> process_results k q chunks r rem = r.
Proof.
  intros H. destruct chunks as [|chunk rest]; simpl; [reflexivity|].
  destruct (rem <=? 0) eqn:E; [reflexivity | apply Z.leb_gt in E; lia].
Qed.

(** X5.  [retrieve_for_book_scope] sends exactly one statement, with
    [LIMIT 15], leaves the retriever connected, and returns a result whose
    counter is the word count of its context, lies between 0 and
    [max_tokens] (0 for a negative budget), and is marked sufficient exactly
    when it reaches 100. *)
Theorem book_scope_within_budget :
  forall (q : str) (max_tokens : Z) (self : Retriever),
    let out := retrieve_for_book_scope q max_tokens self in
    token_count (fst out) = _calculate_token_count (context (fst out)) /\
    0 <= token_count (fst out) <= Z.max 0 max_tokens /\
    is_sufficient (fst out) = (100 <=? token_count (fst out)) /\
    selected_text_used (fst out) = false /\
    executed (snd out) = (q, 15) :: executed self /\
    connection (snd out) = true /\
    database (snd out) = database self.
Proof.
  intros q max_tokens self.
  unfold retrieve_for_book_scope, bind, ensure_connection, connect_to_db,
    execute_search, ret.
  set (init := mkResult [] [] 0 false q false).
  assert (Hinit : counted init) by reflexivity.
  destruct self as [db conn ex]; destruct conn;
    cbn [connection database executed fst snd];
    set (chunks := full_text_search db q 15);
    unfold set_is_sufficient; cbn [token_count context is_sufficient
                                   selected_text_used];
    (split; [apply process_results_counted; exact Hinit|]);
    (split;
     [ destruct (Z.le_gt_cases 0 max_tokens) as [Hm|Hm];
       [ pose proof (process_results_budget 2 q chunks init max_tokens Hm);
         cbn [token_count init] in *; lia
       | rewrite process_results_no_budget by lia; cbn [token_count init]; lia ]
     |]);
    (split; [reflexivity|]);
    (split;
     [ destruct (process_results_extends 2 q chunks init max_tokens)
         as (_ & _ & Hu & _); exact Hu
     |]);
    repeat split.
Qed.

(** [retrieve_minimum_context], with its three exits spelled out. *)
Lemma retrieve_minimum_context_unfold
    (q : str) (selected_text : option str) (max_tokens min_tokens : Z)
    (self : Retriever) :
  let init := mkResult [] [] 0 (provided selected_text) q false in
  let r0 :=
    match selected_text with
    | Some s =>
        if truthy s
        then mkResult s [user_selected_label] (_calculate_token_count s)
               true q (min_tokens <=? _calculate_token_count s)
        else init
    | None => init
    end in
  let found := full_text_search (database self) q 10 in
  let filled :=
    process_results 3 q found r0 (max_tokens - token_count r0) in
  retrieve_minimum_context q selected_text max_tokens min_tokens self
  = if provided selected_text && (token_count r0 <=? max_tokens)
       && is_sufficient r0
    then (r0, mkRetriever (database self) true (executed self))
    else if token_count r0 <? max_tokens
    then (set_is_sufficient filled (min_tokens <=? token_count filled),
          mkRetriever (database self) true ((q, 10) :: executed self))
    else (r0, mkRetriever (database self) true (executed self)).
Proof.
  unfold retrieve_minimum_context, bind, ensure_connection, connect_to_db,
    execute_search, ret.
  destruct self as [db [|] ex]; cbn [connection database executed];
    destruct selected_text as [[|c s]|]; cbn [provided truthy];
    cbn [sources selected_text_used query app];
    repeat match goal with
           | |- context [if ?b then _ else _] => destruct b
           end; reflexivity.
Qed.

Lemma start_result_facts (q : str) (selected_text : option str)
    (min_tokens : Z) :
  let init := mkResult [] [] 0 (provided selected_text) q false in
  let r0 :=
    match selected_text with
    | Some s =>
        if truthy s
        then mkResult s [user_selected_label] (_calculate_token_count s)
               true q (min_tokens <=? _calculate_token_count s)
        else init
    | None => init
    end in
  counted r0 /\ NoDup (sources r0)
  /\ token_count r0 = excerpt_words selected_text
  /\ is_sufficient r0
     = provided selected_text && (min_tokens <=? excerpt_words selected_text).
Proof.
  destruct selected_text as [[|c s]|]; cbn [truthy provided excerpt_words];
    repeat split; try reflexivity; repeat constructor; auto; intros [].
Qed.

(** X6.  The source labels of a result never repeat: a label is added only
    when it is not yet listed, in [retrieve_minimum_context] as in
    [retrieve_for_book_scope]. *)
Theorem sources_never_repeat :
  forall (q : str) (selected_text : option str) (max_tokens min_tokens : Z)
         (self : Retriever),
    NoDup (sources (fst (retrieve_minimum_context q selected_text max_tokens
                           min_tokens self)))
    /\ NoDup (sources (fst (retrieve_for_book_scope q max_tokens self))).
Proof.
  intros q sel max_tokens min_tokens self. split.
  - rewrite retrieve_minimum_context_unfold.
    destruct (start_result_facts q sel min_tokens) as (_ & Hn & _).
    cbv zeta in Hn.
    repeat match goal with
           | |- context [if ?b then (_, _) else _] => destruct b
           end; cbn [fst]; try exact Hn.
    unfold set_is_sufficient. cbn [sources].
    apply process_results_nodup. exact Hn.
  - unfold retrieve_for_book_scope, bind, ensure_connection, connect_to_db,
      execute_search, ret.
    destruct self as [db [|] ex]; cbn [connection database executed fst];
      unfold set_is_sufficient; cbn [sources];
      apply process_results_nodup; constructor.
Qed.

(** X7.  A non-empty excerpt is never dropped or altered: the returned
    context begins with it, the first source is the user-selected label,
    the result is flagged as using the selection, and the counter is at least
    the word count of the excerpt. *)
Theorem excerpt_is_kept_first :
  forall (q s : str) (max_tokens min_tokens : Z) (self : Retriever),
    s <> [] ->
    let r := fst (retrieve_minimum_context q (Some s) max_tokens min_tokens
                    self) in
    (exists text, context r = s ++ text) /\
    (exists labels, sources r = user_selected_label :: labels) /\
    selected_text_used r = true /\
    _calculate_token_count s <= token_count r.
Proof.
  intros q s max_tokens min_tokens self Hs r. unfold r.
  rewrite retrieve_minimum_context_unfold.
  destruct s as [|c s']; [contradiction Hs; reflexivity|].
  cbn [truthy provided]. set (s := c :: s').
  set (r0 := mkResult s [user_selected_label] (_calculate_token_count s) true
               q (min_tokens <=? _calculate_token_count s)).
  assert (H0 : (exists text, context r0 = s ++ text) /\
               (exists labels, sources r0 = user_selected_label :: labels) /\
               selected_text_used r0 = true /\
               _calculate_token_count s <= token_count r0).
  { repeat split; try (exists []; cbn; rewrite ?app_nil_r; reflexivity).
    cbn. lia. }
  repeat match goal with
         | |- context [if ?b then (_, _) else _] => destruct b eqn:?
         end; cbn [fst]; try exact H0.
  unfold set_is_sufficient. cbn [context sources selected_text_used token_count].
  match goal with
  | |- context [process_results 3 q ?found r0 ?rem] =>
      destruct (process_results_extends 3 q found r0 rem)
        as ((text & Ht) & (labels & Hl) & Hu & _);
      pose proof (process_results_budget 3 q found r0 rem) as Hb
  end.
  split; [exists text; exact Ht|].
  split; [exists labels; exact Hl|].
  split; [exact Hu|].
  match goal with
  | H : (token_count r0 <? max_tokens) = true |- _ => apply Z.ltb_lt in H
  end.
  cbn [token_count r0] in *. lia.
Qed.

Lemma excerpt_is_kept_first_witness :
  let chunk := mkChunk ("c1"%string) ("ch1"%string) (Some ("s1"%string : str))
                 ("Intro"%string) ("A robot moves. It is red."%string)
                 (Some 6) in
  let self := mkRetriever (mkDatabase (fun _ _ => [chunk])) false [] in
  let r := fst (retrieve_minimum_context ("robot"%string)
                  (Some ("My robot"%string : str)) 10 5 self) in
  (exists text, context r = ("My robot"%string : str) ++ text) /\
  (exists labels, sources r = user_selected_label :: labels) /\
  selected_text_used r = true /\
  _calculate_token_count ("My robot"%string) <= token_count r.
Proof.
  apply (excerpt_is_kept_first ("robot"%string) ("My robot"%string) 10 5).
  discriminate.
Defined.

(** X8.  One call of [retrieve_minimum_context] sends at most one statement
    to the corpus store: exactly one, with [LIMIT 10], when the words of the
    excerpt (0 without excerpt) are below [max_tokens] and no supplied
    excerpt reaches [min_tokens]; none otherwise.  The earlier trace is kept
    and the retriever is left connected to the same store. *)
Theorem search_runs_at_most_once :
  forall (q : str) (selected_text : option str) (max_tokens min_tokens : Z)
         (self : Retriever),
    let self' := snd (retrieve_minimum_context q selected_text max_tokens
                        min_tokens self) in
    let words := excerpt_words selected_text in
    connection self' = true /\
    database self' = database self /\
    executed self'
    = if (words <? max_tokens)
         && negb (provided selected_text && (min_tokens <=? words))
      then (q, 10) :: executed self
      else executed self.
Proof.
  intros q sel max_tokens min_tokens self.
  rewrite retrieve_minimum_context_unfold.
  destruct (start_result_facts q sel min_tokens) as (_ & _ & Ht & Hs).
  cbv zeta in Ht, Hs. cbv zeta. rewrite Ht, Hs.
  set (words := excerpt_words sel).
  destruct (provided sel); destruct (min_tokens <=? words);
    destruct (words <=? max_tokens) eqn:E1;
    destruct (words <? max_tokens) eqn:E2;
    cbn [andb negb snd connection database executed];
    repeat split.
  all: apply Z.leb_gt in E1; apply Z.ltb_lt in E2; lia.
Qed.

(** X9.  A result marked sufficient always counts at least [min_tokens];
    and whenever an excerpt is supplied or the budget is positive, the mark
    is exactly the test [token_count >= min_tokens]. *)
Theorem sufficient_means_min_tokens :
  forall (q : str) (selected_text : option str) (max_tokens min_tokens : Z)
         (self : Retriever),
    let r := fst (retrieve_minimum_context q selected_text max_tokens
                    min_tokens self) in
    (is_sufficient r = true -> min_tokens <= token_count r) /\
    (provided selected_text = true \/ 0 < max_tokens ->
     is_sufficient r = (min_tokens <=? token_count r)).
Proof.
  intros q sel max_tokens min_tokens self.
  rewrite retrieve_minimum_context_unfold.
  destruct (start_result_facts q sel min_tokens) as (_ & _ & Ht & Hs).
  cbv zeta in Ht, Hs. cbv zeta.
  revert Ht Hs.
  match goal with
  | |- token_count ?x = _ -> _ => set (r0 := x)
  end.
  intros Ht Hs.
  destruct (provided sel && (token_count r0 <=? max_tokens)
            && is_sufficient r0) eqn:Eearly; cbn [fst].
  - apply andb_true_iff in Eearly. destruct Eearly as [_ Esuf].
    rewrite Hs in Esuf. apply andb_true_iff in Esuf.
    destruct Esuf as [Ep Em]. rewrite Hs, Ht, Ep, Em. cbn [andb].
    split; [intros _; apply Z.leb_le; exact Em | reflexivity].
  - destruct (token_count r0 <? max_tokens) eqn:Elt; cbn [fst].
    + unfold set_is_sufficient. cbn [is_sufficient token_count].
      split; [intros H; apply Z.leb_le; exact H | reflexivity].
    + rewrite Hs, Ht. apply Z.ltb_ge in Elt. rewrite Ht in Elt.
      destruct (provided sel) eqn:Ep; cbn [andb].
      * split; [intros H; apply Z.leb_le; exact H | reflexivity].
      * split; [discriminate|]. intros [H|H]; [discriminate|].
        destruct sel as [s|]; cbn [excerpt_words] in Elt.
        -- destruct s; [cbn in Elt; lia | discriminate].
        -- lia.
Qed.

Lemma sufficient_means_min_tokens_witness :
  let chunk := mkChunk ("c1"%string) ("ch1"%string) (Some ("s1"%string : str))
                 ("Intro"%string) ("A robot moves. It is red."%string)
                 (Some 6) in
  let self := mkRetriever (mkDatabase (fun _ _ => [chunk])) false [] in
  let r := fst (retrieve_minimum_context ("robot"%string) None 10 3 self) in
  is_sufficient r = (3 <=? token_count r).
Proof.
  apply (sufficient_means_min_tokens ("robot"%string) None 10 3).
  right. reflexivity.
Defined.

(** X10.  A result that counts no token has a blank context, and the gate
    refuses such a context with reason [no_context], whatever the query and
    the minimum length. *)
Theorem empty_result_is_refused :
  forall (q : str) (selected_text : option str) (max_tokens min_tokens : Z)
         (self : Retriever) (query : str) (min_context_length : Z),
    let r := fst (retrieve_minimum_context q selected_text max_tokens
                    min_tokens self) in
    token_count r = 0 ->
    strip (context r) = [] /\
    should_refuse_answer (context r) query min_context_length
    = mkDecision true (Some (value NO_CONTEXT_PROVIDED))
        (Some (refusal_messages NO_CONTEXT_PROVIDED))
        (Some ("no_context"%string : str)).
Proof.
  intros q sel max_tokens min_tokens self query m r Hz.
  assert (Hc : counted r).
  { destruct (retrieve_minimum_context_cases q sel max_tokens min_tokens self)
      as (r0 & Hc & _ & Hr).
    fold r in Hr. destruct Hr as [Hr | (_ & chunks & b & Hr)]; rewrite Hr.
    - exact Hc.
    - unfold counted, set_is_sufficient. cbn [token_count context].
      apply process_results_counted. exact Hc. }
  unfold counted in Hc. rewrite Hz in Hc. symmetry in Hc.
  apply token_count_zero_iff in Hc. split; [exact Hc|].
  destruct (should_refuse_answer_cases (context r) query m)
    as [(_ & Hd) | [(Hs & _) | [(Hs & _) | (Hs & _)]]];
    [exact Hd | contradiction | contradiction | contradiction].
Qed.

Lemma empty_result_is_refused_witness :
  let self := mkRetriever (mkDatabase (fun _ _ => [])) false [] in
  let r := fst (retrieve_minimum_context ("robot"%string) None 10 3 self) in
  strip (context r) = [] /\
  should_refuse_answer (context r) ("robot"%string) 50
  = mkDecision true (Some (value NO_CONTEXT_PROVIDED))
      (Some (refusal_messages NO_CONTEXT_PROVIDED))
      (Some ("no_context"%string : str)).
Proof.
  apply (empty_result_is_refused ("robot"%string) None 10 3
           (mkRetriever (mkDatabase (fun _ _ => [])) false [])
           ("robot"%string) 50).
  reflexivity.
Defined.

(** ** Which sentences are selected, and in which order *)

Lemma sentence_score_positive (terms : list str) (s : str) :
  0 < sentence_score terms s ->
  exists term, In term terms /\ str_in term (lower s) = true.
Proof.
  intros Hpos.
  destruct (existsb (fun t => str_in t (lower s)) terms) eqn:E.
  - apply existsb_exists in E. exact E.
  - rewrite sentence_score_zero in Hpos; [lia|].
    intros t Ht. destruct (str_in t (lower s)) eqn:Et; [|reflexivity].
    assert (Hex : existsb (fun t => str_in t (lower s)) terms = true)
      by (apply existsb_exists; exists t; auto).
    rewrite Hex in E. discriminate.
Qed.

(** The selection read back as sentences is the list of sentences kept. *)
Lemma selection_sentences (text q : str) (k : Z) :
  split_sentences (_find_relevant_sentences text q k) = top_sentences text q k.
Proof.
  unfold _find_relevant_sentences. apply split_sentences_join.
  apply top_sentences_are_sentences.
Qed.

(** X11.  Every sentence of the selection returned by
    [_find_relevant_sentences] is a sentence of the text in which, after
    lowercasing, at least one term of the lowercased query occurs. *)
Theorem selected_sentences_match_query :
  forall (text q : str) (k : Z) (s : str),
    In s (split_sentences (_find_relevant_sentences text q k)) ->
    In s (split_sentences text) /\
    exists term, In term (split_ws (lower q))
                 /\ str_in term (lower s) = true.
Proof.
  intros text q k s Hs. rewrite selection_sentences in Hs.
  apply In_top_sentences in Hs. destruct Hs as [Hin Hpos].
  split; [exact Hin|]. apply sentence_score_positive. exact Hpos.
Qed.

Lemma selected_sentences_match_query_witness :
  In ("Robots move"%string : str)
     (split_sentences ("Cats sleep. Robots move."%string)) /\
  exists term, In term (split_ws (lower ("robots"%string : str)))
               /\ str_in term (lower ("Robots move"%string : str)) = true.
Proof.
  apply (selected_sentences_match_query
           ("Cats sleep. Robots move."%string) ("robots"%string) 3).
  vm_compute. left. reflexivity.
Defined.

Lemma insert_desc_sorted (x : str * Z) (l : list (str * Z)) :
  StronglySorted (fun a b => snd b <= snd a) l ->
  StronglySorted (fun a b => snd b <= snd a) (insert_desc x l).
Proof.
  induction 1 as [|y l Hl IH Hy]; simpl.
  - repeat constructor.
  - destruct (snd x <? snd y) eqn:E.
    + constructor; [exact IH|].
      apply Forall_forall. intros z Hz. apply In_insert_desc in Hz.
      destruct Hz as [Hz|Hz].
      * subst z. apply Z.ltb_lt in E. lia.
      * rewrite Forall_forall in Hy. apply Hy. exact Hz.
    + apply Z.ltb_ge in E. constructor; [constructor; assumption|].
      constructor; [exact E|].
      rewrite Forall_forall in Hy. apply Forall_forall. intros z Hz.
      specialize (Hy z Hz). simpl in Hy. lia.
Qed.

(** After the sort the scores never increase along the list. *)
Lemma sort_desc_sorted (l : list (str * Z)) :
  StronglySorted (fun a b => snd b <= snd a) (sort_desc l).
Proof.
  induction l as [|x l IH]; simpl; [constructor|].
  apply insert_desc_sorted. exact IH.
Qed.

Lemma firstn_sorted {A : Type} (R : A -> A -> Prop) (n : nat) (l : list A) :
  StronglySorted R l -> StronglySorted R (firstn n l).
Proof.
  intros H. revert n. induction H as [|a l Hl IH Ha]; intros [|n]; simpl;
    try constructor.
  - apply IH.
  - rewrite Forall_forall in *. intros x Hx. apply Ha.
    apply (In_firstn x n l Hx).
Qed.

Lemma filter_sorted {A : Type} (R : A -> A -> Prop) (f : A -> bool)
    (l : list A) :
  StronglySorted R l -> StronglySorted R (filter f l).
Proof.
  induction 1 as [|a l Hl IH Ha]; simpl; [constructor|].
  destruct (f a); [|exact IH]. constructor; [exact IH|].
  rewrite Forall_forall in *. intros x Hx. apply Ha.
  apply filter_In in Hx. apply Hx.
Qed.

Lemma map_fst_sorted (f : str -> Z) (l : list (str * Z)) :
  (forall p, In p l -> snd p = f (fst p)) ->
  StronglySorted (fun a b => snd b <= snd a) l ->
  StronglySorted (fun a b => f b <= f a) (map fst l).
Proof.
  intros Hf H. induction H as [|a l Hl IH Ha]; simpl; [constructor|].
  constructor.
  - apply IH. intros p Hp. apply Hf. right. exact Hp.
  - rewrite Forall_forall in *. intros x Hx. apply in_map_iff in Hx.
    destruct Hx as [p [Hp Hin]]. subst x.
    rewrite <- (Hf a (or_introl eq_refl)), <- (Hf p (or_intror Hin)).
    apply Ha. exact Hin.
Qed.

(** X12.  The sentences of the returned selection come best first: along
    the selection the score (the number of query terms found in the
    sentence) never increases. *)
Theorem selection_is_ordered_by_score :
  forall (text q : str) (k : Z),
    StronglySorted
      (fun a b => sentence_score (split_ws (lower q)) b
                  <= sentence_score (split_ws (lower q)) a)
      (split_sentences (_find_relevant_sentences text q k)).
Proof.
  intros text q k. rewrite selection_sentences. unfold top_sentences.
  set (terms := split_ws (lower q)).
  set (scored := map (fun sentence => (sentence, sentence_score terms sentence))
                     (split_sentences text)).
  apply map_fst_sorted.
  - intros p Hp. apply filter_In in Hp. destruct Hp as [Hp _].
    apply In_slice_to, In_sort_desc in Hp. unfold scored in Hp.
    apply in_map_iff in Hp. destruct Hp as [s [Hs _]]. subst p. reflexivity.
  - apply filter_sorted. unfold slice_to.
    destruct (0 <=? k); apply firstn_sorted, sort_desc_sorted.
Qed.

(** X13.  Whatever the text, the query and the cap, the string returned by
    [_find_relevant_sentences] ends with a period, is not blank and counts
    at least one token: the test [if not relevant_excerpt.strip()] of the
    assembler can never hold for it. *)
Theorem selection_is_never_blank :
  forall (text q : str) (k : Z),
    let selection := _find_relevant_sentences text q k in
    (exists body, selection = body ++ ("."%string : str)) /\
    negb (truthy (strip selection)) = false /\
    1 <= _calculate_token_count selection.
Proof.
  intros text q k selection.
  pose proof (find_relevant_sentences_not_blank text q k) as Hb.
  fold selection in Hb. split; [eexists; reflexivity|].
  split; [rewrite Hb; reflexivity|].
  pose proof (token_count_nonneg selection) as Hn.
  destruct (Z.eq_dec (_calculate_token_count selection) 0) as [Hz|Hz]; [|lia].
  apply token_count_zero_iff in Hz. rewrite Hz in Hb. discriminate.
Qed.

(** X14.  For a non-empty excerpt of at least 50 and at most [max_tokens]
    words, [retrieve_minimum_context] with [min_tokens = 50] returns the
    very result of [retrieve_for_selected_text_only]. *)
Theorem selected_text_only_agrees :
  forall (q s : str) (max_tokens : Z) (self : Retriever),
    s <> [] ->
    50 <= _calculate_token_count s <= max_tokens ->
    fst (retrieve_minimum_context q (Some s) max_tokens 50 self)
    = retrieve_for_selected_text_only s q.
Proof.
  intros q s max_tokens self Hs [Hmin Hmax].
  rewrite retrieve_minimum_context_unfold.
  destruct s as [|c s']; [contradiction Hs; reflexivity|].
  cbn [truthy provided token_count is_sufficient].
  unfold retrieve_for_selected_text_only.
  apply Z.leb_le in Hmin. apply Z.leb_le in Hmax. rewrite Hmin, Hmax.
  cbn [andb fst]. reflexivity.
Qed.

Lemma selected_text_only_agrees_witness :
  fst (retrieve_minimum_context ("robot"%string)
         (Some (List.concat (repeat ("robot "%string : str) 60))) 100 50
         (mkRetriever (mkDatabase (fun _ _ => [])) false []))
  = retrieve_for_selected_text_only
      (List.concat (repeat ("robot "%string : str) 60)) ("robot"%string).
Proof.
  apply (selected_text_only_agrees ("robot"%string)
           (List.concat (repeat ("robot "%string : str) 60)) 100
           (mkRetriever (mkDatabase (fun _ _ => [])) false [])).
  - discriminate.
  - vm_compute. split; discriminate.
Defined.

(** * Further properties of the hallucination prevention *)

Lemma startswith_before (p a b : str) (c : ascii) :
  forallb (fun x => negb (Ascii.eqb x c)) p = true ->
  startswith p (a ++ c :: b) = true -> startswith p a = true.
Proof.
  revert a. induction p as [|x p IH]; intros a Hp; [reflexivity|].
  simpl in Hp. apply andb_true_iff in Hp. destruct Hp as [Hx Hp].
  destruct a as [|y a]; simpl.
  - rewrite (proj1 (negb_true_iff _) Hx). discriminate.
  - intros H. apply andb_true_iff in H. destruct H as [Hxy H].
    rewrite Hxy. simpl. apply (IH a Hp H).
Qed.

(** An occurrence of a phrase cannot straddle a character the phrase does
    not contain. *)
Lemma str_in_split_at (p a b : str) (c : ascii) :
  p <> [] ->
  forallb (fun x => negb (Ascii.eqb x c)) p = true ->
  str_in p (a ++ c :: b) = true ->
  str_in p a = true \/ str_in p b = true.
Proof.
  intros Hne Hp. induction a as [|y a IH]; simpl.
  - intros H. apply orb_true_iff in H. destruct H as [H|H]; [|right; exact H].
    destruct p as [|x p]; [contradiction Hne; reflexivity|].
    simpl in Hp, H. apply andb_true_iff in Hp. destruct Hp as [Hx _].
    rewrite (proj1 (negb_true_iff _) Hx) in H. discriminate.
  - intros H. apply orb_true_iff in H. destruct H as [H|H].
    + left. apply orb_true_iff. left.
      apply (startswith_before p (y :: a) b c Hp H).
    + destruct (IH H) as [Ha|Hb]; [left | right; exact Hb].
      apply orb_true_iff. right. exact Ha.
Qed.

Lemma plain_pattern_facts (p : str) :
  plain_pattern p = true ->
  p <> [] /\ forallb (fun x => negb (Ascii.eqb x ".")) p = true
  /\ (forall b, startswith p (" "%char :: b) = false).
Proof.
  destruct p as [|c p]; [discriminate|]. unfold plain_pattern.
  intros H. apply andb_true_iff in H. destruct H as [Hc Hd].
  split; [discriminate|]. split; [exact Hd|].
  intros b. simpl. rewrite (proj1 (negb_true_iff _) Hc). reflexivity.
Qed.

(** An occurrence of a plain phrase in a text joined with [". "] lies in
    one of the joined parts. *)
Lemma str_in_join (p : str) (xs : list str) :
  plain_pattern p = true ->
  str_in p (join ". "%string xs) = true ->
  exists x, In x xs /\ str_in p x = true.
Proof.
  intros Hp. destruct (plain_pattern_facts p Hp) as (Hne & Hdot & Hsp).
  induction xs as [|x xs IH].
  - simpl. destruct p; [contradiction Hne; reflexivity | discriminate].
  - destruct xs as [|y xs].
    + simpl. intros H. exists x. split; [left; reflexivity | exact H].
    + change (join ". "%string (x :: y :: xs))
        with (x ++ "."%char :: " "%char :: join ". "%string (y :: xs)).
      intros H. apply (str_in_split_at p x _ "."%char Hne Hdot) in H.
      destruct H as [H|H].
      * exists x. split; [left; reflexivity | exact H].
      * change (str_in p (" "%char :: join ". "%string (y :: xs)))
          with (startswith p (" "%char :: join ". "%string (y :: xs))
                || str_in p (join ". "%string (y :: xs))) in H.
        rewrite Hsp in H. simpl orb in H.
        destruct (IH H) as (z & Hz & Hin).
           exists z. split; [right; exact Hz | exact Hin].
Qed.

Lemma lower_join (xs : list str) :
  lower (join ". "%string xs) = join ". "%string (map lower xs).
Proof.
  induction xs as [|x xs IH]; [reflexivity|].
  destruct xs as [|y xs]; [reflexivity|].
  change (join ". "%string (x :: y :: xs))
    with (x ++ ("."%char :: " "%char :: []) ++ join ". "%string (y :: xs)).
  rewrite !lower_app, IH. reflexivity.
Qed.

Lemma dropwhile_suffix {A : Type} (f : A -> bool) (l : list A) :
  exists a, l = a ++ dropwhile f l.
Proof.
  induction l as [|x l [a IH]]; simpl; [exists []; reflexivity|].
  destruct (f x); [|exists []; reflexivity].
  exists (x :: a). simpl. f_equal. exact IH.
Qed.

(** The stripped text is a stretch of the text. *)
Lemma strip_is_stretch (s : str) : exists a b, s = a ++ strip s ++ b.
Proof.
  unfold strip, rstrip, lstrip.
  destruct (dropwhile_suffix is_space s) as [a Ha].
  destruct (dropwhile_suffix is_space (rev (dropwhile is_space s))) as [b Hb].
  exists a, (rev b). rewrite <- rev_app_distr, <- Hb, rev_involutive.
  exact Ha.
Qed.

(** A piece of [split] is a stretch of the text. *)
Lemma split_on_piece_is_stretch (sep : ascii) (s : str) :
  forall (cur x : str),
    In x (split_on_from sep cur s) ->
    exists a b, rev cur ++ s = a ++ x ++ b.
Proof.
  induction s as [|c s IH]; intros cur x; simpl.
  - intros [H|[]]. subst x. exists [], []. rewrite !app_nil_r. reflexivity.
  - destruct (Ascii.eqb c sep).
    + intros [H|H].
      * subst x. exists [], (c :: s). reflexivity.
      * destruct (IH [] x H) as (a & b & Hab). simpl in Hab.
        exists (rev cur ++ c :: a), b. rewrite Hab, <- app_assoc. reflexivity.
    + intros H. destruct (IH (c :: cur) x H) as (a & b & Hab).
      exists a, b. rewrite <- Hab. simpl. rewrite <- app_assoc. reflexivity.
Qed.

Lemma str_in_lower_stretch (p s x a b : str) :
  s = a ++ x ++ b -> str_in p (lower x) = true -> str_in p (lower s) = true.
Proof.
  intros Hs H. rewrite Hs, !lower_app. apply str_in_middle. exact H.
Qed.

(** An occurrence in the text left by [remove_pattern] comes from a kept
    sentence of the text it was given. *)
Lemma remove_pattern_occurrence (r pattern p : str) :
  plain_pattern p = true ->
  str_in p (lower (remove_pattern r pattern)) = true ->
  exists x, In x (split_on "." r)
            /\ re_search pattern (lower x) = false
            /\ str_in p (lower x) = true.
Proof.
  intros Hp H. unfold remove_pattern in H. rewrite lower_join in H.
  apply (str_in_join p _ Hp) in H. destruct H as (z & Hz & Hin).
  apply in_map_iff in Hz. destruct Hz as (y & Hy & Hz). subst z.
  apply in_map_iff in Hz. destruct Hz as (x & Hx & Hz). subst y.
  apply filter_In in Hz. destruct Hz as [Hz Hk].
  exists x. split; [exact Hz|]. split; [apply negb_true_iff; exact Hk|].
  destruct (strip_is_stretch x) as (a & b & Hab).
  apply (str_in_lower_stretch p x (strip x) a b Hab Hin).
Qed.

Lemma remove_pattern_removes (r p : str) :
  plain_pattern p = true ->
  str_in p (lower (remove_pattern r p)) = false.
Proof.
  intros Hp. destruct (str_in p (lower (remove_pattern r p))) eqn:E;
    [|reflexivity].
  apply (remove_pattern_occurrence r p p Hp) in E.
  destruct E as (x & _ & Hk & Hin). unfold re_search in Hk.
  rewrite Hk in Hin. discriminate.
Qed.

Lemma remove_pattern_adds_nothing (r pattern p : str) :
  plain_pattern p = true ->
  str_in p (lower r) = false ->
  str_in p (lower (remove_pattern r pattern)) = false.
Proof.
  intros Hp Hr. destruct (str_in p (lower (remove_pattern r pattern))) eqn:E;
    [|reflexivity].
  apply (remove_pattern_occurrence r pattern p Hp) in E.
  destruct E as (x & Hx & _ & Hin).
  destruct (split_on_piece_is_stretch "." r [] x Hx) as (a & b & Hab).
  simpl in Hab.
  rewrite (str_in_lower_stretch p r x a b Hab Hin) in Hr. discriminate.
Qed.

Lemma fold_remove_pattern_adds_nothing (l : list str) (p : str) :
  plain_pattern p = true ->
  forall r, str_in p (lower r) = false ->
            str_in p (lower (fold_left remove_pattern l r)) = false.
Proof.
  intros Hp. induction l as [|x l IH]; intros r Hr; simpl; [exact Hr|].
  apply IH. apply remove_pattern_adds_nothing; assumption.
Qed.

Lemma fold_remove_pattern_removes (l : list str) :
  forallb plain_pattern l = true ->
  forall r p, In p l ->
              str_in p (lower (fold_left remove_pattern l r)) = false.
Proof.
  induction l as [|x l IH]; intros Hl r p Hin; [destruct Hin|].
  simpl in Hl. apply andb_true_iff in Hl. destruct Hl as [Hx Hl].
  simpl. destruct Hin as [Hin|Hin].
  - subst p. apply fold_remove_pattern_adds_nothing; [exact Hx|].
    apply remove_pattern_removes. exact Hx.
  - apply IH; assumption.
Qed.

Lemma detect_patterns_nil_iff (r : str) :
  detect_patterns r = []
  <-> (forall p, In p hallucination_patterns -> str_in p r = false).
Proof.
  split.
  - intros H p Hp. destruct (str_in p r) eqn:E; [|reflexivity].
    assert (Hin : In p (detect_patterns r))
      by (apply In_detect_patterns; auto).
    rewrite H in Hin. destruct Hin.
  - intros H. destruct (detect_patterns r) as [|p l] eqn:E; [reflexivity|].
    assert (Hin : In p (detect_patterns r)) by (rewrite E; left; reflexivity).
    apply In_detect_patterns in Hin. destruct Hin as [Hp Hs].
    rewrite (H p Hp) in Hs. discriminate.
Qed.

(** The text left by the loop over the patterns holds none of them. *)
Lemma strip_patterns_clean (response : str) :
  detect_patterns (lower (strip_patterns response)) = [].
Proof.
  apply detect_patterns_nil_iff. intros p Hp. unfold strip_patterns.
  apply fold_remove_pattern_removes; [reflexivity | exact Hp].
Qed.

(** X15.  Whatever the answer and the context, the text returned by
    [refine_response] is either the canonical message of
    [INSUFFICIENT_CONTEXT] or the answer stripped of the sentences that hold
    a hallucination pattern, and in both cases none of the patterns occurs
    in it once lowercased. *)
Theorem refined_response_has_no_pattern :
  forall (response context : str),
    let refined := refine_response response context in
    (refined = refusal_messages INSUFFICIENT_CONTEXT
     \/ refined = strip_patterns response) /\
    detect_patterns (lower refined) = [].
Proof.
  intros response context refined. unfold refined, refine_response.
  destruct (negb _).
  - split; [left; reflexivity | vm_compute; reflexivity].
  - split; [right; reflexivity | apply strip_patterns_clean].
Qed.

(** X16.  The pipeline always hands back a text, which is the answer
    itself, the refined answer, or one of the two canonical refusal
    messages; no hallucination pattern occurs in it once lowercased; and
    when it reports [needs_refusal] the text is the message of
    [HALLUCINATION_PREVENTION]. *)
Theorem pipeline_output_has_no_pattern :
  forall (query context response : str),
    let out := run_hallucination_prevention_pipeline query context response in
    exists text,
      refined_response out = Some text /\
      (text = response \/ text = strip_patterns response
       \/ text = refusal_messages INSUFFICIENT_CONTEXT
       \/ text = refusal_messages HALLUCINATION_PREVENTION) /\
      detect_patterns (lower text) = [] /\
      (needs_refusal out = true ->
       text = refusal_messages HALLUCINATION_PREVENTION).
Proof.
  intros query context response.
  unfold run_hallucination_prevention_pipeline.
  destruct (hallucination_detected
              (validate_response_for_hallucinations response context)) eqn:Ed.
  - destruct (refined_response_has_no_pattern response context) as [Hr Hc].
    cbv zeta in Hr, Hc.
    destruct (negb _ && _); cbn [refined_response needs_refusal].
    + eexists. split; [reflexivity|].
      split; [right; right; right; reflexivity|].
      split; [vm_compute; reflexivity | reflexivity].
    + eexists. split; [reflexivity|].
      split; [destruct Hr as [Hr|Hr]; rewrite Hr; auto|].
      split; [exact Hc | discriminate].
  - cbn [refined_response needs_refusal].
    exists response. split; [reflexivity|]. split; [left; reflexivity|].
    split; [|discriminate].
    destruct (validate_fields response context) as (_ & Hv & Hd & _).
    rewrite Ed in Hd. symmetry in Hd. apply negb_false_iff in Hd.
    rewrite Hd in Hv.
    destruct (detect_patterns (lower response)) as [|p l]; [reflexivity|].
    simpl in Hv. discriminate.
Qed.

(** * Properties of the constitution enforcer *)

(** X17.  [validate_context_sufficiency] finds a context sufficient exactly
    when [should_refuse_answer], with the minimum length 50, lets it through
    and the query has at least one word: the two gates differ only on
    queries without words. *)
Theorem sufficiency_agrees_with_gate :
  forall (query context : str),
    ConstitutionEnforcer.is_sufficient
      (ConstitutionEnforcer.validate_context_sufficiency query context)
    = true
    <-> should_refuse (should_refuse_answer context query 50) = false
        /\ split_ws (lower query) <> [].
Proof.
  intros q c. unfold ConstitutionEnforcer.validate_context_sufficiency.
  destruct (should_refuse_answer_cases c q 50)
    as [(Hs & Hd) | [(Hs & Hl & Hd) | [(Hs & Hl & Hc & Hq & Hd)
                                       | (Hs & Hl & Hc & Hd)]]];
    rewrite Hd; cbn [should_refuse].
  - rewrite Hs. cbn. split; [discriminate | intros [H _]; discriminate].
  - destruct (strip c) as [|x s] eqn:E; [contradiction Hs; reflexivity|].
    cbn [truthy negb]. apply Z.ltb_lt in Hl. rewrite Hl. cbn.
    split; [discriminate | intros [H _]; discriminate].
  - destruct (strip c) as [|x s] eqn:E; [contradiction Hs; reflexivity|].
    cbn [truthy negb]. apply Z.ltb_ge in Hl. rewrite Hl, Hc. cbn.
    split; [discriminate | intros [H _]; discriminate].
  - destruct (strip c) as [|x s] eqn:E; [contradiction Hs; reflexivity|].
    cbn [truthy negb]. apply Z.ltb_ge in Hl. rewrite Hl.
    destruct (intersection (pyset (split_ws (lower q)))
                           (pyset (split_ws (lower c)))) as [|w l] eqn:Ei.
    + cbn. split; [discriminate|]. intros [_ Hq].
      destruct Hc as [Hc|Hc]; [contradiction Hc; reflexivity | contradiction].
    + cbn [ConstitutionEnforcer.is_sufficient].
      replace (0 <? len (w :: l)) with true
        by (symmetry; apply Z.ltb_lt; unfold len; simpl; lia).
      cbn. split; [|reflexivity]. intros _. split; [reflexivity|].
      intros Hq.
      assert (Hin : In w (intersection (pyset (split_ws (lower q)))
                            (pyset (split_ws (lower c)))))
        by (rewrite Ei; left; reflexivity).
      apply In_intersection in Hin. destruct Hin as [Hin _].
      apply In_pyset in Hin. rewrite Hq in Hin. exact Hin.
Qed.

Lemma has_source_reference_app_r (a b : str) :
  ConstitutionEnforcer._has_source_reference b = true ->
  ConstitutionEnforcer._has_source_reference (a ++ b) = true.
Proof.
  unfold ConstitutionEnforcer._has_source_reference. rewrite lower_app.
  intros H. apply existsb_exists in H. destruct H as (p & Hp & Hin).
  apply existsb_exists. exists p. split; [exact Hp|].
  apply str_in_app_r. exact Hin.
Qed.

(** The refusal branch is taken exactly on a blank context with a
    non-blank response. *)
Lemma critical_issue_iff (q c r : str) :
  let compliance :=
    ConstitutionEnforcer.check_constitutional_compliance q c r in
  negb (ConstitutionEnforcer.is_compliant compliance)
  && existsb (fun i => str_eqb (ConstitutionEnforcer.severity i)
                               ("critical"%string))
             (ConstitutionEnforcer.issues compliance)
  = negb (truthy (strip c)) && truthy (strip r).
Proof.
  unfold ConstitutionEnforcer.check_constitutional_compliance.
  destruct (negb (truthy (strip c)) && truthy (strip r));
    destruct (truthy (strip r)
              && negb (ConstitutionEnforcer._has_source_reference r));
    reflexivity.
Qed.

(** What [enforce_constitution_rules] returns, case by case. *)
Lemma enforce_constitution_rules_cases (q c r : str) :
  let out := ConstitutionEnforcer.enforce_constitution_rules q c r in
  (strip c = [] /\ strip r <> []
   /\ out = ConstitutionEnforcer.compliant_refusal)
  \/ ((strip c <> [] \/ strip r = []) /\
      ConstitutionEnforcer._has_source_reference r = false /\ c <> []
      /\ out = r ++ ConstitutionEnforcer.source_note)
  \/ ((strip c <> [] \/ strip r = []) /\
      (ConstitutionEnforcer._has_source_reference r = true \/ c = [])
      /\ out = r).
Proof.
  cbv zeta. unfold ConstitutionEnforcer.enforce_constitution_rules.
  rewrite critical_issue_iff.
  assert (Hblank :
            negb (truthy (strip c)) && truthy (strip r) = true
            \/ (negb (truthy (strip c)) && truthy (strip r) = false
                /\ (strip c <> [] \/ strip r = []))).
  { destruct (strip c); destruct (strip r); cbn;
      solve [left; reflexivity
            | right; split; [reflexivity | right; reflexivity]
            | right; split; [reflexivity | left; discriminate]]. }
  destruct Hblank as [Hb | [Hb Hside]]; rewrite Hb.
  - left. apply andb_true_iff in Hb. destruct Hb as [Hc Hr].
    destruct (strip c); [|discriminate]. destruct (strip r); [discriminate|].
    repeat split. discriminate.
  - right.
    destruct (ConstitutionEnforcer._has_source_reference r) eqn:Eh.
    + right. cbn [negb andb]. repeat split; auto.
    + destruct c as [|c0 c']; cbn [negb andb truthy].
      * right. repeat split; auto.
      * left. repeat split; auto. discriminate.
Qed.

(** X18.  Unless the context is the empty string and the response is
    blank, the text returned by [enforce_constitution_rules] contains a
    source reference (one of the words [_has_source_reference] looks for). *)
Theorem enforced_response_has_source_reference :
  forall (query context response : str),
    context <> [] \/ strip response <> [] ->
    ConstitutionEnforcer._has_source_reference
      (ConstitutionEnforcer.enforce_constitution_rules query context response)
    = true.
Proof.
  intros q c r H.
  destruct (enforce_constitution_rules_cases q c r)
    as [(Hc & Hr & Ho) | [(_ & Hh & Hc & Ho) | (Hb & Hh & Ho)]];
    cbv zeta in Ho; rewrite Ho.
  - vm_compute. reflexivity.
  - apply has_source_reference_app_r. vm_compute. reflexivity.
  - destruct Hh as [Hh|Hh]; [exact Hh|]. subst c.
    destruct H as [H|H]; [contradiction H; reflexivity|].
    destruct Hb as [Hb|Hb]; [contradiction Hb; reflexivity | contradiction].
Qed.

Lemma enforced_response_has_source_reference_witness :
  ConstitutionEnforcer._has_source_reference
    (ConstitutionEnforcer.enforce_constitution_rules
       ("How do I install ROS 2?"%string)
       ("ROS 2 can be installed from the official packages."%string)
       ("Install the packages."%string))
  = true.
Proof.
  apply (enforced_response_has_source_reference
           ("How do I install ROS 2?"%string)
           ("ROS 2 can be installed from the official packages."%string)
           ("Install the packages."%string)).
  left. discriminate.
Defined.

(** X19.  [enforce_constitution_rules] replaces a non-blank response by the
    fixed refusal exactly when the context is blank; with a non-blank
    context the response is kept as it is, followed at most by the source
    note. *)
Theorem enforcement_keeps_grounded_response :
  forall (query context response : str),
    strip response <> [] ->
    let out :=
      ConstitutionEnforcer.enforce_constitution_rules query context response in
    (strip context = [] -> out = ConstitutionEnforcer.compliant_refusal) /\
    (strip context <> [] ->
     out = response \/ out = response ++ ConstitutionEnforcer.source_note).
Proof.
  intros q c r Hr out.
  destruct (enforce_constitution_rules_cases q c r)
    as [(Hc & _ & Ho) | [(Hb & _ & _ & Ho) | (Hb & _ & Ho)]];
    fold out in Ho.
  - split; [intros _; exact Ho | intros H; contradiction].
  - destruct Hb as [Hb|Hb]; [|contradiction].
    split; [intros H; contradiction | intros _; right; exact Ho].
  - destruct Hb as [Hb|Hb]; [|contradiction].
    split; [intros H; contradiction | intros _; left; exact Ho].
Qed.

Lemma enforcement_keeps_grounded_response_witness :
  let out :=
    ConstitutionEnforcer.enforce_constitution_rules
      ("What is the meaning of life?"%string) ("   "%string)
      ("The meaning of life is 42."%string) in
  (strip ("   "%string : str) = [] ->
   out = ConstitutionEnforcer.compliant_refusal) /\
  (strip ("   "%string : str) <> [] ->
   out = ("The meaning of life is 42."%string : str)
   \/ out = ("The meaning of life is 42."%string : str)
            ++ ConstitutionEnforcer.source_note).
Proof.
  apply (enforcement_keeps_grounded_response
           ("What is the meaning of life?"%string) ("   "%string)
           ("The meaning of life is 42."%string)).
  vm_compute. discriminate.
Defined.

(** * Properties of the context check of the model client *)

Lemma too_long_is_not_unrelated (n : str) :
  ("Context was too long ("%string : str) ++ n
  ++ (" chars) and was truncated"%string : str)
  <> ("Context appears unrelated to query"%string : str).
Proof. cbn. intros H. inversion H. Qed.

Lemma firstn_len_le {A : Type} (n : Z) (l : list A) :
  0 <= n -> len (firstn (Z.to_nat n) l) <= n.
Proof.
  intros Hn. unfold len. pose proof (firstn_le_length (Z.to_nat n) l). lia.
Qed.

(** X20.  [validate_context_before_send] rejects a context exactly when it
    is blank.  An accepted context is passed on cut to its first 100000
    characters, and it carries the issue "Context appears unrelated to
    query" exactly when [should_refuse_answer], with minimum length 0,
    would refuse it for [no_relevance]: an unrelated context is flagged but
    still accepted. *)
Theorem context_check_before_send :
  forall (context query : str),
    let v := ClaudeRAGClient.validate_context_before_send context query in
    (ClaudeRAGClient.is_valid v = true <-> strip context <> []) /\
    (ClaudeRAGClient.is_valid v = true ->
     ClaudeRAGClient.filtered_context v
     = firstn (Z.to_nat ClaudeRAGClient.max_context_length) context
     /\ len (ClaudeRAGClient.filtered_context v)
        <= ClaudeRAGClient.max_context_length) /\
    (In ("Context appears unrelated to query"%string : str)
        (ClaudeRAGClient.issues v)
     <-> RefusalHandler.reason (should_refuse_answer context query 0)
         = Some ("no_relevance"%string : str)).
Proof.
  intros c q. unfold ClaudeRAGClient.validate_context_before_send.
  set (common := intersection (pyset (split_ws (lower q)))
                              (pyset (split_ws (lower c)))).
  destruct (should_refuse_answer_cases c q 0)
    as [(Hs & Hd) | [(Hs & Hl & Hd) | [(Hs & Hl & Hc & Hq & Hd)
                                       | (Hs & Hl & Hc & Hd)]]];
    rewrite Hd; cbn [RefusalHandler.reason]; try (fold common in Hc).
  - rewrite Hs. change (len (@nil ascii) =? 0) with true.
    rewrite orb_true_r. cbn [ClaudeRAGClient.is_valid ClaudeRAGClient.issues
                             ClaudeRAGClient.filtered_context app].
    split; [split; [discriminate | intros H; contradiction H; reflexivity]|].
    split; [discriminate|].
    split; [intros [H|[]]; inversion H | discriminate].
  - pose proof (len_nonneg (strip c)). lia.
  - rewrite (strip_not_nil_truthy c Hs).
    assert (E0 : (len (strip c) =? 0) = false).
    { apply Z.eqb_neq. intros E. apply len_zero_nil in E. contradiction. }
    rewrite E0. cbn [negb orb andb].
    assert (Hq' : truthy q = true).
    { destruct q; [contradiction Hq; reflexivity | reflexivity]. }
    rewrite Hq', Hc. cbn [andb].
    assert (E1 : (0 <? len (pyset (split_ws (lower q)))) = true).
    { apply Z.ltb_lt. pose proof (len_nonneg (pyset (split_ws (lower q)))).
      destruct (Z.eq_dec (len (pyset (split_ws (lower q)))) 0) as [E|E];
        [|lia].
      apply len_zero_nil in E. apply (proj1 (pyset_nil_iff _)) in E.
      contradiction. }
    rewrite E1. change (len (@nil str) =? 0) with true. cbn [andb].
    destruct (ClaudeRAGClient.max_context_length <? len c) eqn:Em;
      cbn [ClaudeRAGClient.is_valid ClaudeRAGClient.issues
           ClaudeRAGClient.filtered_context app].
    + split; [split; [intros _; exact Hs | reflexivity]|].
      split; [intros _; split;
              [reflexivity
              | apply firstn_len_le;
                unfold ClaudeRAGClient.max_context_length; lia]|].
      split; [reflexivity|]. intros _. right. left. reflexivity.
    + apply Z.ltb_ge in Em. unfold ClaudeRAGClient.max_context_length in Em.
      split; [split; [intros _; exact Hs | reflexivity]|].
      split.
      * intros _. unfold ClaudeRAGClient.max_context_length.
        rewrite firstn_all2 by (unfold len in Em; lia).
        split; [reflexivity | exact Em].
      * split; [reflexivity|]. intros _. left. reflexivity.
  - rewrite (strip_not_nil_truthy c Hs).
    assert (E0 : (len (strip c) =? 0) = false).
    { apply Z.eqb_neq. intros E. apply len_zero_nil in E. contradiction. }
    rewrite E0. cbn [negb orb andb].
    assert (Hno : (len common =? 0)
                  && (0 <? len (pyset (split_ws (lower q)))) = false).
    { destruct Hc as [Hc|Hc].
      - replace (len common =? 0) with false; [reflexivity|].
        symmetry. apply Z.eqb_neq. intros E. apply len_zero_nil in E.
        contradiction.
      - rewrite Hc. cbn. apply andb_false_r. }
    rewrite Hno.
    assert (Hsame : forall v : ClaudeRAGClient.ContextValidation,
               (if truthy q && true then v else v) = v)
      by (intros v; destruct (truthy q); reflexivity).
    rewrite Hsame.
    destruct (ClaudeRAGClient.max_context_length <? len c) eqn:Em;
      cbn [ClaudeRAGClient.is_valid ClaudeRAGClient.issues
           ClaudeRAGClient.filtered_context app].
    + split; [split; [intros _; exact Hs | reflexivity]|].
      split; [intros _; split;
              [reflexivity
              | apply firstn_len_le;
                unfold ClaudeRAGClient.max_context_length; lia]|].
      split; [|discriminate]. intros [H|[]].
      exfalso. exact (too_long_is_not_unrelated _ H).
    + apply Z.ltb_ge in Em. unfold ClaudeRAGClient.max_context_length in Em.
      split; [split; [intros _; exact Hs | reflexivity]|].
      split.
      * intros _. unfold ClaudeRAGClient.max_context_length.
        rewrite firstn_all2 by (unfold len in Em; lia).
        split; [reflexivity | exact Em].
      * split; [intros [] | discriminate].
Qed.

(** * Refining twice *)

Lemma split_on_from_piece (sep : ascii) (t : str) :
  forall (cur rest : str),
    forallb (fun c => negb (Ascii.eqb c sep)) t = true ->
    split_on_from sep cur (t ++ sep :: rest)
    = (rev cur ++ t) :: split_on_from sep [] rest.
Proof.
  induction t as [|c t IH]; intros cur rest Ht; simpl.
  - rewrite Ascii.eqb_refl, app_nil_r. reflexivity.
  - simpl in Ht. apply andb_true_iff in Ht. destruct Ht as [Hc Ht].
    rewrite (proj1 (negb_true_iff _) Hc), (IH (c :: cur) rest Ht).
    simpl. rewrite <- app_assoc. reflexivity.
Qed.

Lemma split_on_from_last (sep : ascii) (t : str) :
  forall cur : str,
    forallb (fun c => negb (Ascii.eqb c sep)) t = true ->
    split_on_from sep cur t = [rev cur ++ t].
Proof.
  induction t as [|c t IH]; intros cur Ht; simpl.
  - rewrite app_nil_r. reflexivity.
  - simpl in Ht. apply andb_true_iff in Ht. destruct Ht as [Hc Ht].
    rewrite (proj1 (negb_true_iff _) Hc), (IH (c :: cur) Ht).
    simpl. rewrite <- app_assoc. reflexivity.
Qed.

Lemma split_on_from_pieces (sep : ascii) (s : str) :
  forall (cur x : str),
    forallb (fun c => negb (Ascii.eqb c sep)) cur = true ->
    In x (split_on_from sep cur s) ->
    forallb (fun c => negb (Ascii.eqb c sep)) x = true.
Proof.
  induction s as [|c s IH]; intros cur x Hcur; simpl.
  - intros [H|[]]. subst x. rewrite forallb_rev. exact Hcur.
  - destruct (Ascii.eqb c sep) eqn:Ec.
    + intros [H|H].
      * subst x. rewrite forallb_rev. exact Hcur.
      * apply (IH [] x); [reflexivity | exact H].
    + apply IH. simpl. rewrite Ec. exact Hcur.
Qed.

(** Splitting at the periods a text that was joined with [". "] from parts
    without periods gives the parts back, all but the first behind a space. *)
Lemma split_on_join (rest : list str) :
  forall (x cur : str),
    Forall (fun y => forallb (fun c => negb (Ascii.eqb c ".")) y = true)
           (x :: rest) ->
    split_on_from "." cur (join ". "%string (x :: rest))
    = (rev cur ++ x) :: map (cons " "%char) rest.
Proof.
  induction rest as [|y rest IH]; intros x cur Hall;
    inversion Hall as [|? ? Hx Hrest]; subst.
  - simpl join. apply split_on_from_last. exact Hx.
  - change (join ". "%string (x :: y :: rest))
      with (x ++ "."%char :: " "%char :: join ". "%string (y :: rest)).
    rewrite (split_on_from_piece "." x cur _ Hx).
    change (split_on_from "." [] (" "%char :: join ". "%string (y :: rest)))
      with (split_on_from "." [" "%char] (join ". "%string (y :: rest))).
    rewrite (IH y [" "%char] Hrest). reflexivity.
Qed.

Lemma join_part_is_stretch (sep : str) (xs : list str) (x : str) :
  In x xs -> exists a b, join sep xs = a ++ x ++ b.
Proof.
  induction xs as [|y xs IH]; [intros []|].
  intros [H|H].
  - subst y. destruct xs as [|z xs].
    + exists [], []. simpl. rewrite app_nil_r. reflexivity.
    + exists [], (sep ++ join sep (z :: xs)). reflexivity.
  - destruct (IH H) as (a & b & Hab). destruct xs as [|z xs]; [destruct H|].
    exists (y ++ sep ++ a), b.
    change (join sep (y :: z :: xs)) with (y ++ sep ++ join sep (z :: xs)).
    rewrite Hab, <- !app_assoc. reflexivity.
Qed.

Lemma str_in_nil_false (p : str) : p <> [] -> str_in p [] = false.
Proof. destruct p; [intros H; contradiction H; reflexivity | reflexivity]. Qed.

(** [remove_pattern] leaves alone a text joined from stripped parts without
    periods in which the pattern does not occur. *)
Lemma remove_pattern_fixed (xs : list str) (p : str) :
  plain_pattern p = true ->
  Forall (fun y => strip y = y
                   /\ forallb (fun c => negb (Ascii.eqb c ".")) y = true) xs ->
  (forall x, In x xs -> str_in p (lower x) = false) ->
  remove_pattern (join ". "%string xs) p = join ". "%string xs.
Proof.
  intros Hp Hall Hfree.
  destruct (plain_pattern_facts p Hp) as (Hne & _ & Hsp).
  unfold remove_pattern, re_search.
  destruct xs as [|x rest].
  - change (join ". "%string (@nil str)) with (@nil ascii).
    change (split_on "." []) with [@nil ascii]. cbn [filter].
    change (lower []) with (@nil ascii).
    rewrite (str_in_nil_false p Hne). reflexivity.
  - unfold split_on. rewrite split_on_join
      by (eapply Forall_impl; [|exact Hall]; intros y Hy; apply Hy).
    f_equal. simpl rev. simpl app.
    inversion Hall as [|? ? [Hsx _] Hrest]; subst.
    simpl filter. rewrite (Hfree x (or_introl eq_refl)). simpl negb.
    cbv iota. simpl map. rewrite Hsx. f_equal.
    assert (Hfree' : forall y, In y rest -> str_in p (lower y) = false)
      by (intros y Hy; apply Hfree; right; exact Hy).
    clear Hall Hfree Hsx. induction Hrest as [|y rest [Hsy _] Hrest IH];
      [reflexivity|].
    simpl map. simpl filter.
    change (lower (" "%char :: y)) with (" "%char :: lower y).
    change (str_in p (" "%char :: lower y))
      with (startswith p (" "%char :: lower y) || str_in p (lower y)).
    rewrite Hsp, (Hfree' y (or_introl eq_refl)). simpl negb. cbv iota.
    simpl map. rewrite strip_space_cons by reflexivity. rewrite Hsy. f_equal.
    apply IH. intros z Hz. apply Hfree'. right. exact Hz.
Qed.

Lemma fold_remove_pattern_fixed (l : list str) (xs : list str) :
  forallb plain_pattern l = true ->
  Forall (fun y => strip y = y
                   /\ forallb (fun c => negb (Ascii.eqb c ".")) y = true) xs ->
  (forall p x, In p l -> In x xs -> str_in p (lower x) = false) ->
  fold_left remove_pattern l (join ". "%string xs) = join ". "%string xs.
Proof.
  intros Hl Hall. induction l as [|p l IH]; intros Hfree; [reflexivity|].
  simpl in Hl. apply andb_true_iff in Hl. destruct Hl as [Hp Hl].
  cbn [fold_left]. rewrite (remove_pattern_fixed xs p Hp Hall)
    by (intros x Hx; apply Hfree; [left; reflexivity | exact Hx]).
  apply IH; [exact Hl|]. intros q x Hq Hx. apply Hfree; [right|]; assumption.
Qed.

(** The text left by a non-empty run of [remove_pattern] is joined from
    stripped parts without periods. *)
Lemma fold_remove_pattern_parts (l : list str) :
  l <> [] ->
  forall r : str,
  exists xs,
    fold_left remove_pattern l r = join ". "%string xs /\
    Forall (fun y => strip y = y
                     /\ forallb (fun c => negb (Ascii.eqb c ".")) y = true) xs.
Proof.
  induction l as [|p l IH]; intros Hne r; [contradiction Hne; reflexivity|].
  destruct l as [|p' l].
  - cbn [fold_left]. unfold remove_pattern. eexists. split; [reflexivity|].
    apply Forall_forall. intros y Hy. apply in_map_iff in Hy.
    destruct Hy as (x & Hx & Hin). subst y. apply filter_In in Hin.
    destruct Hin as [Hin _]. split; [apply strip_idempotent|].
    apply forallb_strip.
    apply (split_on_from_pieces "." r [] x); [reflexivity | exact Hin].
  - change (fold_left remove_pattern (p :: p' :: l) r)
      with (fold_left remove_pattern (p' :: l) (remove_pattern r p)).
    apply IH. discriminate.
Qed.

Lemma strip_patterns_parts (response : str) :
  exists xs,
    strip_patterns response = join ". "%string xs /\
    Forall (fun y => strip y = y
                     /\ forallb (fun c => negb (Ascii.eqb c ".")) y = true) xs.
Proof.
  unfold strip_patterns. apply fold_remove_pattern_parts. discriminate.
Qed.

(** X21.  Refining is idempotent: running the loop over the patterns on a
    text it has already produced returns that text unchanged. *)
Theorem strip_patterns_idempotent :
  forall response : str,
    strip_patterns (strip_patterns response) = strip_patterns response.
Proof.
  intros response.
  destruct (strip_patterns_parts response) as (xs & Hxs & Hall).
  pose proof (strip_patterns_clean response) as Hclean.
  rewrite Hxs in Hclean. rewrite Hxs. unfold strip_patterns at 1.
  apply fold_remove_pattern_fixed; [reflexivity | exact Hall|].
  intros p x Hp Hx.
  destruct (str_in p (lower x)) eqn:E; [|reflexivity].
  destruct (join_part_is_stretch ". "%string xs x Hx) as (a & b & Hab).
  pose proof (str_in_lower_stretch p _ x a b Hab E) as Hocc.
  rewrite (proj1 (detect_patterns_nil_iff _) Hclean p Hp) in Hocc.
  discriminate.
Qed.

(** * Properties of the book content retriever *)

Lemma listed_tokens_app (l : list BookContentRetriever.Content)
    (e : BookContentRetriever.Content) :
  BookContentRetriever.listed_tokens (l ++ [e])
  = BookContentRetriever.listed_tokens l
    + BookContentRetriever.entry_token_count e.
Proof.
  unfold BookContentRetriever.listed_tokens.
  induction l as [|x l IH]; simpl; [lia|]. rewrite IH. lia.
Qed.

(** When every row carries a token count the loop returns, keeps the total
    equal to the sum of the listed counts, never lets a search result push
    the total over [max_tokens], and adds no source label twice. *)
Lemma add_chunks_returns (max_tokens : Z) (chunks : list Chunk) :
  (forall chunk, In chunk chunks -> chunk_token_count chunk <> None) ->
  forall (r : BookContentRetriever.Context) (bound : Z),
    BookContentRetriever.total_tokens r
    = BookContentRetriever.listed_tokens
        (BookContentRetriever.retrieved_content r) ->
    BookContentRetriever.total_tokens r <= bound -> max_tokens <= bound ->
    NoDup (BookContentRetriever.sources r) ->
    exists r',
      BookContentRetriever.add_chunks max_tokens chunks r
      = BookContentRetriever.Returned r' /\
      BookContentRetriever.total_tokens r'
      = BookContentRetriever.listed_tokens
          (BookContentRetriever.retrieved_content r') /\
      BookContentRetriever.total_tokens r' <= bound /\
      NoDup (BookContentRetriever.sources r') /\
      BookContentRetriever.selected_text_used r'
      = BookContentRetriever.selected_text_used r.
Proof.
  induction chunks as [|chunk rest IH]; intros Hall r bound Hsum Hb Hm Hnd.
  - exists r. repeat split; assumption.
  - cbn [BookContentRetriever.add_chunks].
    destruct (chunk_token_count chunk) as [n|] eqn:En;
      [|exfalso; apply (Hall chunk (or_introl eq_refl)); exact En].
    assert (Hrest : forall c, In c rest -> chunk_token_count c <> None)
      by (intros c Hc; apply Hall; right; exact Hc).
    destruct (BookContentRetriever.total_tokens r + n <=? max_tokens) eqn:Eadd.
    + apply Z.leb_le in Eadd.
      set (r1 := BookContentRetriever.add_chunk r chunk n).
      assert (H1 : BookContentRetriever.total_tokens r1
                   = BookContentRetriever.listed_tokens
                       (BookContentRetriever.retrieved_content r1)).
      { unfold r1, BookContentRetriever.add_chunk.
        cbn [BookContentRetriever.total_tokens
             BookContentRetriever.retrieved_content].
        rewrite listed_tokens_app, Hsum. reflexivity. }
      assert (H2 : BookContentRetriever.total_tokens r1 <= bound).
      { unfold r1, BookContentRetriever.add_chunk.
        cbn [BookContentRetriever.total_tokens]. lia. }
      assert (H3 : NoDup (BookContentRetriever.sources r1)).
      { unfold r1, BookContentRetriever.add_chunk.
        cbn [BookContentRetriever.sources].
        destruct (mem _ (BookContentRetriever.sources r)) eqn:E; [exact Hnd|].
        apply NoDup_app; [exact Hnd | repeat constructor; intros [] |].
        intros x Hx [Hin|[]]. subst x. apply mem_In in Hx.
        rewrite Hx in E. discriminate. }
      destruct (max_tokens <=? BookContentRetriever.total_tokens r1).
      * exists r1. repeat split; assumption.
      * destruct (IH Hrest r1 bound H1 H2 Hm H3)
          as (r' & Hr & Hs & Hb' & Hn' & Hu).
        exists r'. repeat split; assumption.
    + destruct (max_tokens <=? BookContentRetriever.total_tokens r).
      * exists r. repeat split; assumption.
      * apply (IH Hrest r bound Hsum Hb Hm Hnd).
Qed.

(** X22.  When every row the search finds carries a token count,
    [get_relevant_context] returns a dictionary (no [TypeError]): its total
    is the sum of the token counts it lists, never above the larger of
    [max_tokens] and the word count of the supplied excerpt, and its source
    labels do not repeat; at most one statement was sent to the store. *)
Theorem relevant_context_within_budget :
  forall (q : str) (selected_text : option str) (max_tokens : Z)
         (self : Retriever),
    (forall chunk, In chunk (full_text_search (database self) q 10) ->
                   chunk_token_count chunk <> None) ->
    let out :=
      BookContentRetriever.get_relevant_context q selected_text max_tokens
                                                self in
    exists r,
      fst out = BookContentRetriever.Returned r /\
      BookContentRetriever.total_tokens r
      = BookContentRetriever.listed_tokens
          (BookContentRetriever.retrieved_content r) /\
      BookContentRetriever.total_tokens r
      <= Z.max max_tokens (excerpt_words selected_text) /\
      NoDup (BookContentRetriever.sources r) /\
      BookContentRetriever.selected_text_used r = provided selected_text /\
      (executed (snd out) = executed self
       \/ executed (snd out) = (q, 10) :: executed self).
Proof.
  intros q sel max_tokens self Hall.
  unfold BookContentRetriever.get_relevant_context,
    BookContentRetriever.search_content, bind, ensure_connection,
    connect_to_db, execute_search, ret.
  set (init := BookContentRetriever.mkContext [] (provided sel) 0 []).
  set (r0 := match sel with
             | Some s => if truthy s then _ else init
             | None => init
             end).
  assert (H0 : BookContentRetriever.total_tokens r0
               = BookContentRetriever.listed_tokens
                   (BookContentRetriever.retrieved_content r0)
               /\ BookContentRetriever.total_tokens r0 = excerpt_words sel
               /\ NoDup (BookContentRetriever.sources r0)
               /\ BookContentRetriever.selected_text_used r0 = provided sel).
  { unfold r0, init. destruct sel as [[|c s]|];
      cbn [truthy BookContentRetriever.total_tokens
           BookContentRetriever.retrieved_content BookContentRetriever.sources
           BookContentRetriever.selected_text_used app excerpt_words
           BookContentRetriever.listed_tokens fold_right
           BookContentRetriever.entry_token_count];
      unfold _calculate_token_count;
      repeat split; try reflexivity; try lia;
      repeat constructor; auto; intros []. }
  destruct H0 as (Hsum & Hew & Hnd & Hsel).
  destruct (BookContentRetriever.total_tokens r0 <? max_tokens) eqn:Elt.
  - destruct (add_chunks_returns max_tokens
                (full_text_search (database self) q 10) Hall r0
                (Z.max max_tokens (excerpt_words sel)) Hsum)
      as (r' & Hr & Hs & Hb & Hn & Hu); [lia | lia | exact Hnd |].
    exists r'. destruct self as [db [|] ex];
      cbn [connection database executed fst snd] in *;
      (split; [exact Hr|]); (split; [exact Hs|]); (split; [exact Hb|]);
      (split; [exact Hn|]); (split; [rewrite Hu; exact Hsel|]);
      right; reflexivity.
  - exists r0. cbn [fst snd].
    split; [reflexivity|]. split; [exact Hsum|]. split; [lia|].
    split; [exact Hnd|]. split; [exact Hsel|]. left. reflexivity.
Qed.

Lemma relevant_context_within_budget_witness :
  let chunk := mkChunk ("c1"%string) ("ch1"%string) (Some ("s1"%string : str))
                 ("Intro"%string) ("A robot moves. It is red."%string)
                 (Some 6) in
  let self := mkRetriever (mkDatabase (fun _ _ => [chunk; chunk])) false [] in
  let out := BookContentRetriever.get_relevant_context ("robot"%string)
               (Some ("My robot"%string : str)) 10 self in
  exists r,
    fst out = BookContentRetriever.Returned r /\
    BookContentRetriever.total_tokens r
    = BookContentRetriever.listed_tokens
        (BookContentRetriever.retrieved_content r) /\
    BookContentRetriever.total_tokens r
    <= Z.max 10 (excerpt_words (Some ("My robot"%string : str))) /\
    NoDup (BookContentRetriever.sources r) /\
    BookContentRetriever.selected_text_used r = true /\
    (executed (snd out) = executed self
     \/ executed (snd out) = (("robot"%string : str), 10) :: executed self).
Proof.
  apply (relevant_context_within_budget ("robot"%string)
           (Some ("My robot"%string : str)) 10).
  intros chunk' Hin. cbn in Hin.
  destruct Hin as [H|[H|[]]]; subst chunk'; discriminate.
Defined.
